(** * Container lifecycle event translation and the container metadata cache

    A shallow embedding of the Go package [subscription]: the translator
    [translateContainerEvents], the cache operations [saveContainerEvent]
    and [getContainerEvent], and the helpers they use.

    Go pointers to [api.ContainerEvent] are locations in an explicit heap,
    because the translator stores one and the same pointer in a merge map
    and in the cache and later mutates the object behind it.  The package
    level variables are the fields of [World].  A Go [panic] is the
    [Panic] outcome of the monad [M].  The mutex [containerCacheLock] only
    brackets the single map access it protects; in this sequential model
    it has no effect and is left out. *)

From Stdlib Require Import ZArith String.
From stdpp Require Import base strings gmap list.

Abbreviation len := String.length.

(** ** Data of the imported packages *)

(** Go's conversion [int32(x)]: the low 32 bits, read as two's complement. *)
Definition int32 (x : Z) : Z := ((x + 2 ^ 31) `mod` 2 ^ 32 - 2 ^ 31)%Z.

(** Go's [error] values, by their message. *)
Definition error := string.

Inductive result (A : Type) : Type :=
| Ok (a : A)
| Err (e : error).
Arguments Ok {A} a.
Arguments Err {A} e.

(** A pointer to an [api.ContainerEvent]. *)
Definition loc := nat.

Module container.

(** Modelled from the spec: the declaration of [container.State], the
    phase tag of a notification (one of Created, Started, Stopped,
    Removed), is not among the sources.  The four constants are the ones
    the translator switches on; [ContainerStateOther] stands for every
    other value of the Go integer type, which the [default] case takes. *)
Inductive State : Type :=
| ContainerCreated
| ContainerStarted
| ContainerStopped
| ContainerRemoved
| ContainerStateOther (tag : Z).

Module Event.
(** Modelled from the spec: the declaration of [container.Event], the
    raw notification, is not among the sources.  These are the fields the
    translator reads; [Pid] is an integer (0 if unknown) that the
    translator converts with [int32], and [ExitCode] is assigned to an
    [int32] field as it is. *)
Record t : Type := mk {
  ID : string;
  Name : string;
  ImageID : string;
  Image : string;
  Pid : Z;
  DockerConfig : string;
  OciConfig : string;
  State : container.State;
  ExitCode : Z
}.
End Event.

Module DockerConfig.
(** Modelled from the spec: the declaration of [container.DockerConfig],
    the static metadata of one container, is not among the sources.
    [Image] is the image ID and [Config_Image] is the field [Config.Image],
    the declared image reference. *)
Record t : Type := mk {
  ID : string;
  Name : string;
  Image : string;
  Config_Image : string
}.
End DockerConfig.

End container.

Module api.

Inductive ContainerEventType : Type :=
| CONTAINER_EVENT_TYPE_UNKNOWN
| CONTAINER_EVENT_TYPE_CREATED
| CONTAINER_EVENT_TYPE_RUNNING
| CONTAINER_EVENT_TYPE_EXITED
| CONTAINER_EVENT_TYPE_DESTROYED.

Module ContainerEvent.
(** Modelled from the spec: the declaration of [api.ContainerEvent] is not
    among the sources.  These are the fields the package assigns; the
    first constant of [ContainerEventType] is the zero value. *)
Record t : Type := mk {
  Type_ : ContainerEventType;
  Name : string;
  ImageId : string;
  ImageName : string;
  HostPid : Z;
  DockerConfigJson : string;
  OciConfigJson : string;
  ExitCode : Z
}.

(** The zero value of the struct with the given [Type]. *)
Definition zero (ty : ContainerEventType) : t :=
  mk ty "" "" "" 0 "" "" 0.

Definition set_Name (v : string) (e : t) : t :=
  mk (Type_ e) v (ImageId e) (ImageName e) (HostPid e)
     (DockerConfigJson e) (OciConfigJson e) (ExitCode e).
Definition set_ImageId (v : string) (e : t) : t :=
  mk (Type_ e) (Name e) v (ImageName e) (HostPid e)
     (DockerConfigJson e) (OciConfigJson e) (ExitCode e).
Definition set_ImageName (v : string) (e : t) : t :=
  mk (Type_ e) (Name e) (ImageId e) v (HostPid e)
     (DockerConfigJson e) (OciConfigJson e) (ExitCode e).
Definition set_HostPid (v : Z) (e : t) : t :=
  mk (Type_ e) (Name e) (ImageId e) (ImageName e) v
     (DockerConfigJson e) (OciConfigJson e) (ExitCode e).
Definition set_DockerConfigJson (v : string) (e : t) : t :=
  mk (Type_ e) (Name e) (ImageId e) (ImageName e) (HostPid e)
     v (OciConfigJson e) (ExitCode e).
Definition set_OciConfigJson (v : string) (e : t) : t :=
  mk (Type_ e) (Name e) (ImageId e) (ImageName e) (HostPid e)
     (DockerConfigJson e) v (ExitCode e).
Definition set_ExitCode (v : Z) (e : t) : t :=
  mk (Type_ e) (Name e) (ImageId e) (ImageName e) (HostPid e)
     (DockerConfigJson e) (OciConfigJson e) v.
End ContainerEvent.

(** The payload [&api.Event_Container{Container: ece}] of an envelope. *)
Inductive isEvent_Event : Type :=
| Event_Container (Container : loc).

Module Event.
(** Modelled from the spec: the declaration of the envelope [api.Event]
    is not among the sources.  These are the fields the translator
    assigns, and [ContainerId] for the argument of
    [newEventFromContainer]. *)
Record t : Type := mk {
  ContainerId : string;
  ContainerName : string;
  ImageId : string;
  ImageName : string;
  Event : option isEvent_Event
}.
End Event.

End api.

Import container api.

(** ** What the package takes from outside this file *)

(** Calls made to the runtime-introspection functions of [container]. *)
Inductive Call : Type :=
| CallGetDockerConfigList
| CallGetDockerConfig (contId : string).

(** [container.GetDockerConfigList], [container.GetDockerConfig] and
    [newEventFromContainer] are not among the sources and are taken as
    parameters.  The first two answer as a function of the calls made so
    far; the third is a pure constructor of an envelope for a container
    ID, of which the translator then assigns the name, the image fields
    and the payload. *)
Record Externals : Type := {
  GetDockerConfigList : list Call -> result (list DockerConfig.t);
  GetDockerConfig : list Call -> string -> result DockerConfig.t;
  newEventFromContainer : string -> Event.t
}.

(** ** Package state *)

(** A Go map variable is [None] when it is the nil map. *)
Record World : Type := mkWorld {
  heap : list ContainerEvent.t;
  containerCreated : option (gmap string loc);
  containerStarted : option (gmap string loc);
  containerCache : option (gmap string loc);
  containerCacheOnce : bool;
  calls : list Call
}.

Definition set_heap (h : list ContainerEvent.t) (w : World) : World :=
  mkWorld h (containerCreated w) (containerStarted w) (containerCache w)
          (containerCacheOnce w) (calls w).
Definition set_containerCreated (m : option (gmap string loc)) (w : World) : World :=
  mkWorld (heap w) m (containerStarted w) (containerCache w)
          (containerCacheOnce w) (calls w).
Definition set_containerStarted (m : option (gmap string loc)) (w : World) : World :=
  mkWorld (heap w) (containerCreated w) m (containerCache w)
          (containerCacheOnce w) (calls w).
Definition set_containerCache (m : option (gmap string loc)) (w : World) : World :=
  mkWorld (heap w) (containerCreated w) (containerStarted w) m
          (containerCacheOnce w) (calls w).
Definition set_containerCacheOnce (b : bool) (w : World) : World :=
  mkWorld (heap w) (containerCreated w) (containerStarted w) (containerCache w)
          b (calls w).
Definition set_calls (c : list Call) (w : World) : World :=
  mkWorld (heap w) (containerCreated w) (containerStarted w) (containerCache w)
          (containerCacheOnce w) c.

(** The package right after its variable initialisers have run: both merge
    maps made, the cache map nil, the [Once] not yet done. *)
Definition initWorld : World :=
  mkWorld [] (Some ∅) (Some ∅) None false [].

(** Reading [m[k]] from a Go map that may be nil. *)
Definition map_index (m : option (gmap string loc)) (k : string) : option loc :=
  match m with
  | Some g => g !! k
  | None => None
  end.

(** ** The monad of package code: state and panics *)

Inductive outcome (A : Type) : Type :=
| Ret (a : A) (w : World)
| Panic (msg : string).
Arguments Ret {A} a w.
Arguments Panic {A} msg.

Definition M (A : Type) : Type := World -> outcome A.

Definition ret {A} (a : A) : M A := fun w => Ret a w.

Definition bind {A B} (c : M A) (k : A -> M B) : M B :=
  fun w => match c w with
           | Ret a w' => k a w'
           | Panic msg => Panic msg
           end.

Definition panic {A} (msg : string) : M A := fun _ => Panic msg.

Definition get : M World := fun w => Ret w w.
Definition modify (f : World -> World) : M unit := fun w => Ret tt (f w).

Notation "x <- c ;; k" := (bind c (fun x => k))
  (at level 100, c at next level, right associativity).
Notation "c ;; k" := (bind c (fun _ => k))
  (at level 100, right associativity).

Definition when (b : bool) (c : M unit) : M unit := if b then c else ret tt.

(** [&api.ContainerEvent{...}]: a fresh object at the end of the heap. *)
Definition alloc (e : ContainerEvent.t) : M loc :=
  fun w => Ret (length (heap w)) (set_heap (heap w ++ [e]) w).

(** Reading through a pointer; a pointer to nothing is Go's nil. *)
Definition load (p : loc) : M ContainerEvent.t :=
  fun w => match heap w !! p with
           | Some e => Ret e w
           | None => Panic "invalid memory address or nil pointer dereference"
           end.

(** A field assignment [p.F = v]. *)
Definition assign (p : loc) (f : ContainerEvent.t -> ContainerEvent.t) : M unit :=
  e <- load p ;; modify (fun w => set_heap (<[p := f e]> (heap w)) w).

(** ** The package [subscription] *)

Section Package.

Variable ext : Externals.

Definition call_GetDockerConfigList : M (result (list DockerConfig.t)) :=
  fun w => Ret (GetDockerConfigList ext (calls w))
               (set_calls (calls w ++ [CallGetDockerConfigList]) w).

Definition call_GetDockerConfig (contId : string) : M (result DockerConfig.t) :=
  fun w => Ret (GetDockerConfig ext (calls w) contId)
               (set_calls (calls w ++ [CallGetDockerConfig contId]) w).

Definition newContainerCreated (cID : string) : M loc :=
  alloc (ContainerEvent.zero CONTAINER_EVENT_TYPE_CREATED).

Definition newContainerRunning (cID : string) : M loc :=
  alloc (ContainerEvent.zero CONTAINER_EVENT_TYPE_RUNNING).

Definition newContainerExited (cID : string) : M loc :=
  alloc (ContainerEvent.zero CONTAINER_EVENT_TYPE_EXITED).

Definition newContainerDestroyed (cID : string) : M loc :=
  alloc (ContainerEvent.zero CONTAINER_EVENT_TYPE_DESTROYED).

(** The [for ... range dockerConfigList] loop of [newContainerCache]. *)
Fixpoint newContainerCache_range (dockerConfigList : list DockerConfig.t)
         (contCache : gmap string loc) : M (gmap string loc) :=
  match dockerConfigList with
  | [] => ret contCache
  | dockerConfig :: rest =>
      ce <- alloc (ContainerEvent.mk CONTAINER_EVENT_TYPE_UNKNOWN
                     (DockerConfig.Name dockerConfig)
                     (DockerConfig.Image dockerConfig)
                     (DockerConfig.Config_Image dockerConfig)
                     0 "" "" 0) ;;
      newContainerCache_range rest (<[DockerConfig.ID dockerConfig := ce]> contCache)
  end.

Definition newContainerCache : M (option (gmap string loc) * option error) :=
  r <- call_GetDockerConfigList ;;
  match r with
  | Err err => ret (None, Some err)
  | Ok dockerConfigList =>
      contCache <- newContainerCache_range dockerConfigList ∅ ;;
      ret (Some contCache, None)
  end.

(** [containerCacheOnce.Do(func() { containerCache, _ = newContainerCache() })] *)
Definition containerCacheOnce_Do : M unit :=
  w <- get ;;
  if containerCacheOnce w then ret tt
  else
    r <- newContainerCache ;;
    modify (set_containerCache (fst r)) ;;
    modify (set_containerCacheOnce true).

Definition saveContainerEvent (contId : string) (ce : loc) : M unit :=
  containerCacheOnce_Do ;;
  w <- get ;;
  match containerCache w with
  | Some m => modify (set_containerCache (Some (<[contId := ce]> m)))
  | None => panic "assignment to entry in nil map"
  end.

Definition trimImageIdPrefix (ImageId : string) : string :=
  if String.prefix "sha256:" ImageId
  then String.substring 7 (len ImageId - 7) ImageId
  else ImageId.

(** The Go function returns a pointer to an [api.ContainerEvent] and an
    [error]; [None] is nil in both positions. *)
Definition getContainerEvent (contId : string) : M (option loc * option error) :=
  containerCacheOnce_Do ;;
  w <- get ;;
  match map_index (containerCache w) contId with
  | Some ce => ret (None, None)
  | None =>
      r <- call_GetDockerConfig contId ;;
      match r with
      | Err err => ret (None, Some err)
      | Ok dc =>
          ce <- alloc (ContainerEvent.mk CONTAINER_EVENT_TYPE_UNKNOWN
                         (DockerConfig.Name dc)
                         (trimImageIdPrefix (DockerConfig.Image dc))
                         (DockerConfig.Config_Image dc)
                         0 "" "" 0) ;;
          saveContainerEvent contId ce ;;
          ret (None, None)
      end
  end.

Definition translateContainerEvents (ce : container.Event.t) : M (option Event.t) :=
  ece <- match container.Event.State ce with
         | ContainerCreated =>
             (w <- get ;;
              match containerCreated w with
              | None => modify (set_containerCreated (Some ∅))
              | Some _ => ret tt
              end) ;;
             w <- get ;;
             ece <- match map_index (containerCreated w) (container.Event.ID ce) with
                    | Some ece => ret ece
                    | None =>
                        ece <- newContainerCreated (container.Event.ID ce) ;;
                        assign ece (ContainerEvent.set_Name (container.Event.Name ce)) ;;
                        assign ece (ContainerEvent.set_ImageId (container.Event.ImageID ce)) ;;
                        assign ece (ContainerEvent.set_ImageName (container.Event.Image ce)) ;;
                        ret ece
                    end ;;
             e <- load ece ;;
             when (len (ContainerEvent.DockerConfigJson e) <? len (container.Event.DockerConfig ce))%nat
                  (assign ece (ContainerEvent.set_DockerConfigJson (container.Event.DockerConfig ce))) ;;
             w <- get ;;
             match map_index (containerCreated w) (container.Event.ID ce) with
             | None =>
                 modify (fun w => set_containerCreated
                           (insert (container.Event.ID ce) ece <$> containerCreated w) w) ;;
                 saveContainerEvent (container.Event.ID ce) ece ;;
                 ret None
             | Some _ =>
                 modify (fun w => set_containerCreated
                           (delete (container.Event.ID ce) <$> containerCreated w) w) ;;
                 ret (Some ece)
             end
         | ContainerStarted =>
             (w <- get ;;
              match containerStarted w with
              | None => modify (set_containerStarted (Some ∅))
              | Some _ => ret tt
              end) ;;
             w <- get ;;
             ece <- match map_index (containerStarted w) (container.Event.ID ce) with
                    | Some ece => ret ece
                    | None => newContainerRunning (container.Event.ID ce)
                    end ;;
             when (negb (container.Event.Pid ce =? 0)%Z)
                  (assign ece (ContainerEvent.set_HostPid (int32 (container.Event.Pid ce)))) ;;
             when (0 <? len (container.Event.DockerConfig ce))%nat
                  (assign ece (ContainerEvent.set_DockerConfigJson (container.Event.DockerConfig ce))) ;;
             when (0 <? len (container.Event.OciConfig ce))%nat
                  (assign ece (ContainerEvent.set_OciConfigJson (container.Event.OciConfig ce))) ;;
             w <- get ;;
             match map_index (containerStarted w) (container.Event.ID ce) with
             | None =>
                 modify (fun w => set_containerStarted
                           (insert (container.Event.ID ce) ece <$> containerStarted w) w) ;;
                 saveContainerEvent (container.Event.ID ce) ece ;;
                 ret None
             | Some _ =>
                 modify (fun w => set_containerStarted
                           (delete (container.Event.ID ce) <$> containerStarted w) w) ;;
                 ret (Some ece)
             end
         | ContainerStopped =>
             ece <- newContainerExited (container.Event.ID ce) ;;
             when (negb (container.Event.Pid ce =? 0)%Z)
                  (assign ece (ContainerEvent.set_HostPid (int32 (container.Event.Pid ce)))) ;;
             when (0 <? len (container.Event.DockerConfig ce))%nat
                  (assign ece (ContainerEvent.set_DockerConfigJson (container.Event.DockerConfig ce))) ;;
             assign ece (ContainerEvent.set_Name (container.Event.Name ce)) ;;
             assign ece (ContainerEvent.set_ImageId (container.Event.ImageID ce)) ;;
             assign ece (ContainerEvent.set_ImageName (container.Event.Image ce)) ;;
             assign ece (ContainerEvent.set_ExitCode (container.Event.ExitCode ce)) ;;
             ret (Some ece)
         | ContainerRemoved =>
             ece <- newContainerDestroyed (container.Event.ID ce) ;;
             ret (Some ece)
         | ContainerStateOther _ =>
             panic "Invalid value for ContainerState"
         end ;;
  match ece with
  | Some ece =>
      when (0 <? len (container.Event.DockerConfig ce))%nat
           (assign ece (ContainerEvent.set_DockerConfigJson (container.Event.DockerConfig ce))) ;;
      when (0 <? len (container.Event.OciConfig ce))%nat
           (assign ece (ContainerEvent.set_OciConfigJson (container.Event.OciConfig ce))) ;;
      saveContainerEvent (container.Event.ID ce) ece ;;
      e <- load ece ;;
      let ev := newEventFromContainer ext (container.Event.ID ce) in
      ret (Some (Event.mk (Event.ContainerId ev)
                          (ContainerEvent.Name e)
                          (ContainerEvent.ImageId e)
                          (ContainerEvent.ImageName e)
                          (Some (Event_Container ece))))
  | None => ret None
  end.

(** The caller's loop: the notifications of a stream are translated in
    order and the non-nil results are what is emitted. *)
Fixpoint feed (notifications : list container.Event.t) : M (list Event.t) :=
  match notifications with
  | [] => ret []
  | ce :: rest =>
      r <- translateContainerEvents ce ;;
      evs <- feed rest ;;
      ret (match r with
           | Some ev => ev :: evs
           | None => evs
           end)
  end.

End Package.

(** ** Descriptions of what the package computes *)

Section Described.

Variable ext : Externals.

(** Whether a write to the cache map will find a map to write to: the
    bootstrap has left a non-nil map, or has not run yet and the
    enumeration it will make succeeds. *)
Definition cache_usable (w : World) : Prop :=
  if containerCacheOnce w
  then is_Some (containerCache w)
  else exists l, GetDockerConfigList ext (calls w) = Ok l.

(** The state in which the [Once] leaves the package. *)
Definition bootstrapped (w : World) : World :=
  match containerCacheOnce_Do ext w with
  | Ret _ w' => w'
  | Panic _ => w
  end.

(** The envelope the translator builds around the object at [p]. *)
Definition envelope (cID : string) (p : loc) (e : ContainerEvent.t) : Event.t :=
  Event.mk (Event.ContainerId (newEventFromContainer ext cID))
           (ContainerEvent.Name e) (ContainerEvent.ImageId e)
           (ContainerEvent.ImageName e) (Some (Event_Container p)).

(** The [Exited] event of a [Stopped] notification. *)
Definition exited_of (n : container.Event.t) : ContainerEvent.t :=
  ContainerEvent.mk CONTAINER_EVENT_TYPE_EXITED
    (container.Event.Name n) (container.Event.ImageID n) (container.Event.Image n)
    (if (container.Event.Pid n =? 0)%Z then 0%Z else int32 (container.Event.Pid n))
    (container.Event.DockerConfig n) (container.Event.OciConfig n)
    (container.Event.ExitCode n).

(** The [Destroyed] event of a [Removed] notification; the final
    overwrite pass copies the notification's two configuration blobs. *)
Definition destroyed_of (n : container.Event.t) : ContainerEvent.t :=
  ContainerEvent.mk CONTAINER_EVENT_TYPE_DESTROYED "" "" "" 0
    (container.Event.DockerConfig n) (container.Event.OciConfig n) 0.

(** The object the first [Created] notification for an ID leaves in the
    merge map and in the cache. *)
Definition created_of (n : container.Event.t) : ContainerEvent.t :=
  ContainerEvent.mk CONTAINER_EVENT_TYPE_CREATED
    (container.Event.Name n) (container.Event.ImageID n) (container.Event.Image n)
    0 (container.Event.DockerConfig n) "" 0.

(** What a notification that is about to be emitted does to the two
    configuration blobs of the object [e] it was merged into. *)
Definition overwrite_configs (n : container.Event.t) (e : ContainerEvent.t)
  : ContainerEvent.t :=
  ContainerEvent.set_OciConfigJson
    (if (0 <? len (container.Event.OciConfig n))%nat
     then container.Event.OciConfig n else ContainerEvent.OciConfigJson e)
    (ContainerEvent.set_DockerConfigJson
       (if (0 <? len (container.Event.DockerConfig n))%nat
        then container.Event.DockerConfig n else ContainerEvent.DockerConfigJson e)
       e).

(** The object the first [Started] notification for an ID leaves in the
    merge map and in the cache. *)
Definition running_of (n : container.Event.t) : ContainerEvent.t :=
  ContainerEvent.mk CONTAINER_EVENT_TYPE_RUNNING "" "" ""
    (if (container.Event.Pid n =? 0)%Z then 0%Z else int32 (container.Event.Pid n))
    (container.Event.DockerConfig n) (container.Event.OciConfig n) 0.

(** What a further [Started] notification does to the buffered object. *)
Definition started_merge (n : container.Event.t) (e : ContainerEvent.t)
  : ContainerEvent.t :=
  overwrite_configs n
    (ContainerEvent.set_HostPid
       (if (container.Event.Pid n =? 0)%Z
        then ContainerEvent.HostPid e else int32 (container.Event.Pid n))
       e).

(** The object an emitted envelope points to, as it is in state [w]. *)
Definition emitted (w : World) (ev : Event.t) : option ContainerEvent.t :=
  match Event.Event ev with
  | Some (Event_Container p) => heap w !! p
  | None => None
  end.

(** The entry [getContainerEvent] builds from a single lookup. *)
Definition entry_of (dc : DockerConfig.t) : ContainerEvent.t :=
  ContainerEvent.mk CONTAINER_EVENT_TYPE_UNKNOWN
    (DockerConfig.Name dc) (trimImageIdPrefix (DockerConfig.Image dc))
    (DockerConfig.Config_Image dc) 0 "" "" 0.

End Described.

(** The entries of a bootstrapped cache other than the one for [contId]
    are the same in [w'] as in [w]. *)
Definition cache_kept_except (contId : string) (w w' : World) : Prop :=
  containerCacheOnce w = true ->
  forall k, k <> contId ->
    map_index (containerCache w') k = map_index (containerCache w) k.

(** The PIDs that [int32] leaves as they are. *)
Definition fits_int32 (x : Z) : Prop := (- 2 ^ 31 <= x < 2 ^ 31)%Z.

(** The last non-zero PID of two notifications (zero when both are). *)
Definition last_nonzero_pid (n1 n2 : container.Event.t) : Z :=
  if (container.Event.Pid n2 =? 0)%Z
  then container.Event.Pid n1 else container.Event.Pid n2.

(** ** Fixtures *)

(** A host with no containers at bootstrap, where any single container can
    be looked up. *)
Definition ext_empty : Externals :=
  {| GetDockerConfigList := fun _ => Ok [];
     GetDockerConfig := fun _ contId =>
       Ok (DockerConfig.mk contId "web" "sha256:abc" "nginx");
     newEventFromContainer := fun cID => Event.mk cID "" "" "" None |}.

(** A host whose container enumeration fails. *)
Definition ext_down : Externals :=
  {| GetDockerConfigList := fun _ => Err "cannot connect to the Docker daemon";
     GetDockerConfig := fun _ contId =>
       Ok (DockerConfig.mk contId "web" "sha256:abc" "nginx");
     newEventFromContainer := fun cID => Event.mk cID "" "" "" None |}.

(** A host on which the single lookup fails. *)
Definition ext_unknown : Externals :=
  {| GetDockerConfigList := fun _ => Ok [];
     GetDockerConfig := fun _ _ => Err "no such container";
     newEventFromContainer := fun cID => Event.mk cID "" "" "" None |}.

(** The package after a bootstrap that found no containers. *)
Definition readyWorld : World :=
  mkWorld [] (Some ∅) (Some ∅) (Some ∅) true [CallGetDockerConfigList].

Definition created_long : container.Event.t :=
  container.Event.mk "c1" "web" "img" "nginx" 0 "ab" "" ContainerCreated 0.
Definition created_short : container.Event.t :=
  container.Event.mk "c1" "" "" "" 0 "a" "" ContainerCreated 0.
Definition started_docker : container.Event.t :=
  container.Event.mk "c1" "web" "img" "nginx" 0 "{docker}" "" ContainerStarted 0.
Definition started_oci : container.Event.t :=
  container.Event.mk "c1" "" "" "" 4242 "" "{oci}" ContainerStarted 0.
Definition stopped_c1 : container.Event.t :=
  container.Event.mk "c1" "web" "img" "nginx" 4242 "" "" ContainerStopped 137.
Definition removed_c2 : container.Event.t :=
  container.Event.mk "c2" "" "" "" 0 "{}" "" ContainerRemoved 0.
Definition bad_phase : container.Event.t :=
  container.Event.mk "c1" "" "" "" 0 "" "" (ContainerStateOther 99) 0.

(** ** Further descriptions *)

(** The entry [newContainerCache] builds for an enumerated container. *)
Definition boot_entry (dc : DockerConfig.t) : ContainerEvent.t :=
  ContainerEvent.mk CONTAINER_EVENT_TYPE_UNKNOWN
    (DockerConfig.Name dc) (DockerConfig.Image dc)
    (DockerConfig.Config_Image dc) 0 "" "" 0.

(** The map the loop of [newContainerCache] builds from [contCache] when
    the objects of the list are allocated from the pointer [base] on. *)
Fixpoint range_map (l : list DockerConfig.t) (base : nat)
         (contCache : gmap string loc) : gmap string loc :=
  match l with
  | [] => contCache
  | dc :: rest => range_map rest (S base) (<[DockerConfig.ID dc := base]> contCache)
  end.

(** Every pointer a map holds points into the heap [h]. *)
Definition ptrs_valid (m : option (gmap string loc))
           (h : list ContainerEvent.t) : Prop :=
  forall k p, map_index m k = Some p -> p < length h.

(** The pointers of both merge maps point into the heap. *)
Definition buffers_valid (w : World) : Prop :=
  ptrs_valid (containerCreated w) (heap w)
  /\ ptrs_valid (containerStarted w) (heap w).

(** The phase tag is one of the four the translator switches on. *)
Definition known_phase (n : container.Event.t) : Prop :=
  match container.Event.State n with
  | ContainerStateOther _ => False
  | _ => True
  end.

(** How often the container enumeration has been called. *)
Definition enumerations (cl : list Call) : nat :=
  length (List.filter (fun c => match c with
                                | CallGetDockerConfigList => true
                                | CallGetDockerConfig _ => false
                                end) cl).

(** How often the single lookup has been called. *)
Definition lookups (cl : list Call) : nat :=
  length (List.filter (fun c => match c with
                                | CallGetDockerConfigList => false
                                | CallGetDockerConfig _ => true
                                end) cl).

(** The two entry points other code of the package calls. *)
Inductive Op : Type :=
| OpTranslate (ce : container.Event.t)
| OpGet (contId : string).

Definition run_op (ext : Externals) (op : Op) : M unit :=
  match op with
  | OpTranslate ce => translateContainerEvents ext ce ;; ret tt
  | OpGet contId => getContainerEvent ext contId ;; ret tt
  end.

(** A sequence of calls, each of which returns. *)
Fixpoint run_ops (ext : Externals) (ops : list Op) : M unit :=
  match ops with
  | [] => ret tt
  | op :: rest => run_op ext op ;; run_ops ext rest
  end.

(** The merge map of a phase that pairs notifications. *)
Definition merge_map (ph : container.State) (w : World)
  : option (gmap string loc) :=
  match ph with
  | ContainerCreated => containerCreated w
  | ContainerStarted => containerStarted w
  | _ => None
  end.

(** The object the first notification of a pair leaves behind. *)
Definition first_object (n : container.Event.t) : ContainerEvent.t :=
  match container.Event.State n with
  | ContainerCreated => created_of n
  | _ => running_of n
  end.

(** What the second notification of a pair makes of the pending object. *)
Definition merge_object (n : container.Event.t) (e : ContainerEvent.t)
  : ContainerEvent.t :=
  match container.Event.State n with
  | ContainerCreated => overwrite_configs n e
  | _ => started_merge n e
  end.

(** The phase pairs notifications. *)
Definition pairing (ph : container.State) : Prop :=
  ph = ContainerCreated \/ ph = ContainerStarted.

(** ** The clone flags of package [sensor] *)

Module sensor.

Definition CSIGNAL : Z := 0x000000ff.
Definition CLONE_VM : Z := 0x00000100.
Definition CLONE_FS : Z := 0x00000200.
Definition CLONE_FILES : Z := 0x00000400.
Definition CLONE_SIGHAND : Z := 0x00000800.
Definition CLONE_PTRACE : Z := 0x00002000.
Definition CLONE_VFORK : Z := 0x00004000.
Definition CLONE_PARENT : Z := 0x00008000.
Definition CLONE_THREAD : Z := 0x00010000.
Definition CLONE_NEWNS : Z := 0x00020000.
Definition CLONE_SYSVSEM : Z := 0x00040000.
Definition CLONE_SETTLS : Z := 0x00080000.
Definition CLONE_PARENT_SETTID : Z := 0x00100000.
Definition CLONE_CHILD_CLEARTID : Z := 0x00200000.
Definition CLONE_DETACHED : Z := 0x00400000.
Definition CLONE_UNTRACED : Z := 0x00800000.
Definition CLONE_CHILD_SETTID : Z := 0x01000000.
Definition CLONE_NEWCGROUP : Z := 0x02000000.
Definition CLONE_NEWUTS : Z := 0x04000000.
Definition CLONE_NEWIPC : Z := 0x08000000.
Definition CLONE_NEWUSER : Z := 0x10000000.
Definition CLONE_NEWPID : Z := 0x20000000.
Definition CLONE_NEWNET : Z := 0x40000000.
Definition CLONE_IO : Z := 0x80000000.

(** The flags of the constant block, without the signal mask. *)
Definition clone_flags : list Z :=
  [CLONE_VM; CLONE_FS; CLONE_FILES; CLONE_SIGHAND; CLONE_PTRACE; CLONE_VFORK;
   CLONE_PARENT; CLONE_THREAD; CLONE_NEWNS; CLONE_SYSVSEM; CLONE_SETTLS;
   CLONE_PARENT_SETTID; CLONE_CHILD_CLEARTID; CLONE_DETACHED; CLONE_UNTRACED;
   CLONE_CHILD_SETTID; CLONE_NEWCGROUP; CLONE_NEWUTS; CLONE_NEWIPC;
   CLONE_NEWUSER; CLONE_NEWPID; CLONE_NEWNET; CLONE_IO].

(** A flags argument of [clone]: the chosen flags and the exit signal,
    or-ed together. *)
Definition flags_word (chosen : list Z) (signal : Z) : Z :=
  Z.lor (fold_right Z.lor 0%Z chosen) signal.

(** The test [word & flag != 0]. *)
Definition has_flag (word flag : Z) : bool :=
  negb (Z.land word flag =? 0)%Z.

End sensor.

(** ** More fixtures *)

Definition dc_web : DockerConfig.t :=
  DockerConfig.mk "c1" "web" "sha256:abc" "nginx".
Definition dc_db : DockerConfig.t :=
  DockerConfig.mk "c2" "db" "def" "postgres".

(** A host with two containers at bootstrap and no single lookup. *)
Definition ext_two : Externals :=
  {| GetDockerConfigList := fun _ => Ok [dc_web; dc_db];
     GetDockerConfig := fun _ _ => Err "no such container";
     newEventFromContainer := fun cID => Event.mk cID "" "" "" None |}.

(** A host whose runtime answers nothing. *)
Definition ext_off : Externals :=
  {| GetDockerConfigList := fun _ => Err "cannot connect to the Docker daemon";
     GetDockerConfig := fun _ _ => Err "cannot connect to the Docker daemon";
     newEventFromContainer := fun cID => Event.mk cID "" "" "" None |}.

Definition created_other : container.Event.t :=
  container.Event.mk "c2" "db" "img2" "postgres" 0 "{c2}" "" ContainerCreated 0.

Definition mixed_stream : list container.Event.t :=
  [created_long; started_docker; created_short; stopped_c1; started_oci;
   removed_c2].

(** A bootstrapped package that has ["c2"] in its cache. *)
Definition seenWorld : World :=
  mkWorld [boot_entry dc_db] (Some ∅) (Some ∅) (Some {["c2" := 0]}) true
          [CallGetDockerConfigList].

(** Whenever [c] returns, the states before and after are related by [R]. *)
Definition keeps {A} (R : World -> World -> Prop) (c : M A) : Prop :=
  forall w a w', c w = Ret a w' -> R w w'.

(** The cache map, the [Once] and the calls made are the same in both
    states. *)
Definition same_cache_state (w w' : World) : Prop :=
  containerCache w' = containerCache w
  /\ containerCacheOnce w' = containerCacheOnce w
  /\ calls w' = calls w.

(** What a step may do to the cache: the [Once] stays done, the
    enumeration is called at most once and only while the [Once] is not
    done, and a bootstrapped cache loses no key. *)
Definition evolves (w w' : World) : Prop :=
  (containerCacheOnce w = true -> containerCacheOnce w' = true)
  /\ enumerations (calls w')
     <= enumerations (calls w)
        + (if containerCacheOnce w then 0
           else if containerCacheOnce w' then 1 else 0)
  /\ (containerCacheOnce w = true ->
      forall k, is_Some (map_index (containerCache w) k) ->
                is_Some (map_index (containerCache w') k)).

(** What the translator may do to the call log: nothing, or, with the
    [Once] not yet done, the one enumeration. *)
Definition only_bootstraps (w w' : World) : Prop :=
  (containerCacheOnce w = true ->
   containerCacheOnce w' = true /\ calls w' = calls w)
  /\ (containerCacheOnce w = false ->
      (containerCacheOnce w' = false /\ calls w' = calls w)
      \/ (containerCacheOnce w' = true
          /\ calls w' = calls w ++ [CallGetDockerConfigList])).

(** ** Running package code *)

Lemma run_bind {A B} (c : M A) (k : A -> M B) w a w1 r :
  c w = Ret a w1 -> k a w1 = r -> bind c k w = r.
Proof. intros Hc Hk. unfold bind. now rewrite Hc. Qed.

Lemma run_bind_panic {A B} (c : M A) (k : A -> M B) w msg :
  c w = Panic msg -> bind c k w = Panic msg.
Proof. intros Hc. unfold bind. now rewrite Hc. Qed.

(** Heap accesses through the pointer [length h] to the object [e] of a
    heap [h ++ e :: t]: the shape a heap has after [alloc] on [h], whatever
    was allocated later. *)
Lemma run_load h e t cr st ca on cl :
  load (length h) (mkWorld (h ++ e :: t) cr st ca on cl)
  = Ret e (mkWorld (h ++ e :: t) cr st ca on cl).
Proof. unfold load. simpl. now rewrite list_lookup_middle. Qed.

Lemma insert_middle (h t : list ContainerEvent.t) e e' :
  <[length h := e']> (h ++ e :: t) = h ++ e' :: t.
Proof.
  rewrite insert_app_r_alt by reflexivity. now rewrite Nat.sub_diag.
Qed.

Lemma run_assign f h e t cr st ca on cl :
  assign (length h) f (mkWorld (h ++ e :: t) cr st ca on cl)
  = Ret tt (mkWorld (h ++ f e :: t) cr st ca on cl).
Proof.
  unfold assign. eapply run_bind; [ apply run_load | ].
  unfold modify, set_heap. simpl. now rewrite insert_middle.
Qed.

(** A guarded field assignment applies the update or leaves the object. *)
Lemma run_when_assign (b : bool) f h e t cr st ca on cl :
  when b (assign (length h) f) (mkWorld (h ++ e :: t) cr st ca on cl)
  = Ret tt (mkWorld (h ++ (if b then f else id) e :: t) cr st ca on cl).
Proof. destruct b; simpl; [ apply run_assign | reflexivity ]. Qed.

(** One step of a run: the head of a [bind] is a primitive whose result
    is known from the shape of the state. *)
Ltac run_simpl :=
  cbv beta;
  unfold set_heap, set_containerCreated, set_containerStarted,
         set_containerCache, set_containerCacheOnce, set_calls;
  cbn [heap containerCreated containerStarted containerCache
       containerCacheOnce calls fmap option_fmap option_map].

Ltac run_prim :=
  lazymatch goal with
  | |- ret _ _ = _ => reflexivity
  | |- get _ = _ => reflexivity
  | |- modify _ _ = _ => reflexivity
  | |- alloc _ _ = _ => reflexivity
  | |- load _ _ = _ => apply run_load
  | |- assign _ _ _ = _ => apply run_assign
  | |- when _ (assign _ _) _ = _ => apply run_when_assign
  | |- bind _ _ _ = _ => eapply run_bind; [ run_prim | run_simpl; run_prim ]
  end.

Ltac run_step := eapply run_bind; [ run_prim | run_simpl ].

Section Bootstrap.

Variable ext : Externals.

(** The loop of [newContainerCache] always completes; it only appends
    objects to the heap. *)
Lemma newContainerCache_range_run l :
  forall contCache w,
  exists m extra,
    newContainerCache_range l contCache w
    = Ret m (set_heap (heap w ++ extra) w).
Proof.
  induction l as [|dc l IH]; intros contCache w.
  - exists contCache, []. simpl. unfold ret. rewrite app_nil_r.
    now destruct w.
  - simpl.
    destruct (IH (<[DockerConfig.ID dc := length (heap w)]> contCache)
                 (set_heap (heap w ++
                    [ContainerEvent.mk CONTAINER_EVENT_TYPE_UNKNOWN
                       (DockerConfig.Name dc) (DockerConfig.Image dc)
                       (DockerConfig.Config_Image dc) 0 "" "" 0]) w))
      as (m & extra & Hrun).
    eexists m, (_ :: extra).
    eapply run_bind; [ reflexivity | ].
    etransitivity; [ exact Hrun | ]. f_equal.
    destruct w; unfold set_heap; simpl. now rewrite <- app_assoc.
Qed.

Lemma containerCacheOnce_Do_run w :
  exists c extra cl,
    containerCacheOnce_Do ext w
    = Ret tt (mkWorld (heap w ++ extra) (containerCreated w)
                      (containerStarted w) c true cl)
    /\ (containerCacheOnce w = true ->
        c = containerCache w /\ extra = [] /\ cl = calls w)
    /\ (containerCacheOnce w = false ->
        cl = calls w ++ [CallGetDockerConfigList]
        /\ (forall e, GetDockerConfigList ext (calls w) = Err e ->
                      c = None /\ extra = [])
        /\ (forall l, GetDockerConfigList ext (calls w) = Ok l ->
                      is_Some c)).
Proof.
  destruct w as [h cr st ca on cl]. unfold containerCacheOnce_Do.
  destruct on.
  - exists ca, [], cl. rewrite app_nil_r. split; [ reflexivity | ].
    split; [ auto | discriminate ].
  - destruct (GetDockerConfigList ext cl) as [l|e] eqn:Hl.
    + destruct (newContainerCache_range_run l ∅
                  (mkWorld h cr st ca false (cl ++ [CallGetDockerConfigList])))
        as (m & extra & Hrun).
      exists (Some m), extra, (cl ++ [CallGetDockerConfigList]). split.
      { eapply run_bind; [ reflexivity | ]. simpl.
        eapply run_bind.
        { unfold newContainerCache.
          eapply run_bind; [ reflexivity | ]. simpl. rewrite Hl.
          eapply run_bind; [ exact Hrun | reflexivity ]. }
        reflexivity. }
      split; [ discriminate | ]. intros _.
      split; [ reflexivity | ]. split; [ intros e He; simpl in He; congruence | ].
      intros _ _. eauto.
    + exists None, [], (cl ++ [CallGetDockerConfigList]). split.
      { eapply run_bind; [ reflexivity | ]. simpl.
        eapply run_bind.
        { unfold newContainerCache.
          eapply run_bind; [ reflexivity | ]. simpl. rewrite Hl. reflexivity. }
        rewrite app_nil_r. reflexivity. }
      split; [ discriminate | ]. intros _.
      split; [ reflexivity | ]. split; [ auto | intros l Hl'; simpl in Hl'; congruence ].
Qed.

Lemma containerCacheOnce_Do_bootstrapped w :
  containerCacheOnce_Do ext w = Ret tt (bootstrapped ext w).
Proof.
  unfold bootstrapped.
  destruct (containerCacheOnce_Do_run w) as (c & extra & cl & Hrun & _).
  now rewrite Hrun.
Qed.

Lemma bootstrapped_done w :
  containerCacheOnce w = true -> bootstrapped ext w = w.
Proof.
  intros Hon. unfold bootstrapped.
  destruct (containerCacheOnce_Do_run w) as (c & extra & cl & Hrun & Hd & _).
  rewrite Hrun. destruct (Hd Hon) as (-> & -> & ->).
  rewrite app_nil_r. destruct w; simpl in *. now subst.
Qed.

(** A cache write on a usable cache: the bootstrap (if still due) may
    append objects to the heap, and the map then holds the pointer. *)
Lemma saveContainerEvent_run contId ce w :
  cache_usable ext w ->
  exists m extra cl,
    saveContainerEvent ext contId ce w
    = Ret tt (mkWorld (heap w ++ extra) (containerCreated w)
                      (containerStarted w) (Some (<[contId := ce]> m)) true cl)
    /\ (containerCacheOnce w = true ->
        containerCache w = Some m /\ extra = [] /\ cl = calls w).
Proof.
  intros Hu. unfold saveContainerEvent.
  destruct (containerCacheOnce_Do_run w) as (c & extra & cl & Hrun & Hd & Hn).
  assert (Hc : is_Some c).
  { unfold cache_usable in Hu. destruct (containerCacheOnce w).
    - destruct (Hd eq_refl) as (-> & _). exact Hu.
    - destruct Hu as [l Hl]. destruct (Hn eq_refl) as (_ & _ & Hok). eauto. }
  destruct Hc as [m ->]. exists m, extra, cl. split.
  - eapply run_bind; [ exact Hrun | ]. reflexivity.
  - intros Hon. destruct (Hd Hon) as (Hm & He & Hcl). auto.
Qed.

(** A cache write after a failed bootstrap hits the nil map. *)
Lemma saveContainerEvent_nil contId ce w :
  containerCache (bootstrapped ext w) = None ->
  saveContainerEvent ext contId ce w = Panic "assignment to entry in nil map".
Proof.
  intros Hnil. unfold saveContainerEvent.
  eapply run_bind; [ apply containerCacheOnce_Do_bootstrapped | ].
  unfold bind, get. now rewrite Hnil.
Qed.

(** A failed enumeration leaves the nil map, not an empty one. *)
Lemma bootstrapped_failed w e :
  containerCacheOnce w = false ->
  GetDockerConfigList ext (calls w) = Err e ->
  containerCache (bootstrapped ext w) = None.
Proof.
  intros Hoff He. unfold bootstrapped.
  destruct (containerCacheOnce_Do_run w) as (c & extra & cl & Hrun & _ & Hn).
  rewrite Hrun. simpl. destruct (Hn Hoff) as (_ & Herr & _).
  now destruct (Herr e He).
Qed.

(** So the first cache write after a failed enumeration panics, whatever
    is written. *)
Lemma saveContainerEvent_failed_bootstrap contId ce w e :
  containerCacheOnce w = false ->
  GetDockerConfigList ext (calls w) = Err e ->
  saveContainerEvent ext contId ce w = Panic "assignment to entry in nil map".
Proof.
  intros Hoff He. apply saveContainerEvent_nil.
  now apply (bootstrapped_failed w e).
Qed.

End Bootstrap.

(** ** What one call of the translator does, phase by phase *)

(** The state handed to the next command holds the object under
    construction at the end of a heap [h ++ [x]]; [fold_object e] replaces
    the chain of field updates [x] by its value [e]. *)
Ltac fold_object e tac :=
  lazymatch goal with
  | |- bind _ _ (mkWorld (_ ++ ?x :: _) _ _ _ _ _) = _ =>
      replace x with e by tac
  end.

Ltac by_cases_on n :=
  destruct n as [? ? ? ? pid dc oc ? ?]; simpl;
  destruct dc, oc, (pid =? 0)%Z; simpl; unfold id;
  repeat match goal with
         | |- context [if ?b then _ else _] => destruct b
         end;
  reflexivity.

Section Translator.

Variable ext : Externals.

Lemma stopped_run (n : container.Event.t) w :
  container.Event.State n = ContainerStopped ->
  cache_usable ext w ->
  exists extra c cl,
    translateContainerEvents ext n w
    = Ret (Some (envelope ext (container.Event.ID n) (length (heap w)) (exited_of n)))
          (mkWorld (heap w ++ exited_of n :: extra)
                   (containerCreated w) (containerStarted w)
                   (Some (<[container.Event.ID n := length (heap w)]> c)) true cl).
Proof.
  intros HS Hu. destruct w as [h cr st ca on cl].
  destruct (saveContainerEvent_run ext (container.Event.ID n) (length h)
              (mkWorld (h ++ [exited_of n]) cr st ca on cl) Hu)
    as (m & extra & cl' & Hsave & _).
  exists extra, m, cl'.
  unfold translateContainerEvents. rewrite HS. unfold newContainerExited.
  eapply run_bind; [ repeat run_step; reflexivity | ].
  cbv beta. repeat run_step.
  fold_object (exited_of n) ltac:(unfold exited_of; by_cases_on n).
  eapply run_bind; [ exact Hsave | ].
  cbn [heap containerCreated containerStarted]. rewrite <- app_assoc.
  repeat run_step. reflexivity.
Qed.

Lemma removed_run (n : container.Event.t) w :
  container.Event.State n = ContainerRemoved ->
  cache_usable ext w ->
  exists extra c cl,
    translateContainerEvents ext n w
    = Ret (Some (envelope ext (container.Event.ID n) (length (heap w)) (destroyed_of n)))
          (mkWorld (heap w ++ destroyed_of n :: extra)
                   (containerCreated w) (containerStarted w)
                   (Some (<[container.Event.ID n := length (heap w)]> c)) true cl)
    /\ (containerCacheOnce w = true -> containerCache w = Some c).
Proof.
  intros HS Hu. destruct w as [h cr st ca on cl].
  destruct (saveContainerEvent_run ext (container.Event.ID n) (length h)
              (mkWorld (h ++ [destroyed_of n]) cr st ca on cl) Hu)
    as (m & extra & cl' & Hsave & Hdone).
  exists extra, m, cl'. split; [ | intros Hon; now destruct (Hdone Hon) ].
  unfold translateContainerEvents. rewrite HS. unfold newContainerDestroyed.
  eapply run_bind; [ repeat run_step; reflexivity | ].
  cbv beta. repeat run_step.
  fold_object (destroyed_of n) ltac:(unfold destroyed_of; by_cases_on n).
  eapply run_bind; [ exact Hsave | ].
  cbn [heap containerCreated containerStarted]. rewrite <- app_assoc.
  repeat run_step. reflexivity.
Qed.

Lemma created_first_run (n : container.Event.t) w :
  container.Event.State n = ContainerCreated ->
  map_index (containerCreated w) (container.Event.ID n) = None ->
  cache_usable ext w ->
  exists extra c cl,
    translateContainerEvents ext n w
    = Ret None
          (mkWorld (heap w ++ created_of n :: extra)
                   (Some (<[container.Event.ID n := length (heap w)]>
                            (default ∅ (containerCreated w))))
                   (containerStarted w)
                   (Some (<[container.Event.ID n := length (heap w)]> c)) true cl).
Proof.
  intros HS Hnone Hu. destruct w as [h cr st ca on cl].
  destruct (saveContainerEvent_run ext (container.Event.ID n) (length h)
              (mkWorld (h ++ [created_of n])
                 (Some (<[container.Event.ID n := length h]> (default ∅ cr)))
                 st ca on cl) Hu)
    as (m & extra & cl' & Hsave & _).
  exists extra, m, cl'.
  unfold translateContainerEvents. rewrite HS. unfold newContainerCreated.
  assert (Hidx : map_index (Some (default ∅ cr)) (container.Event.ID n) = None).
  { destruct cr; [ exact Hnone | apply lookup_empty ]. }
  eapply run_bind with (a := None); [ | reflexivity ].
  eapply run_bind with (a := tt)
                       (w1 := mkWorld h (Some (default ∅ cr)) st ca on cl).
  { eapply run_bind; [ reflexivity | ]. now destruct cr. }
  cbv beta. run_step. rewrite Hidx. repeat run_step.
  rewrite Hidx. repeat run_step.
  fold_object (created_of n) ltac:(unfold created_of; by_cases_on n).
  eapply run_bind; [ exact Hsave | ].
  cbn [heap containerCreated containerStarted]. now rewrite <- app_assoc.
Qed.

Lemma created_second_run (n : container.Event.t) h e t cr st ca on cl :
  container.Event.State n = ContainerCreated ->
  map_index (Some cr) (container.Event.ID n) = Some (length h) ->
  cache_usable ext (mkWorld (h ++ e :: t) (Some cr) st ca on cl) ->
  exists extra c cl',
    translateContainerEvents ext n (mkWorld (h ++ e :: t) (Some cr) st ca on cl)
    = Ret (Some (envelope ext (container.Event.ID n) (length h) e))
          (mkWorld (h ++ overwrite_configs n e :: t ++ extra)
                   (Some (delete (container.Event.ID n) cr)) st
                   (Some (<[container.Event.ID n := length h]> c)) true cl').
Proof.
  intros HS Hsome Hu.
  destruct (saveContainerEvent_run ext (container.Event.ID n) (length h)
              (mkWorld (h ++ overwrite_configs n e :: t)
                 (Some (delete (container.Event.ID n) cr)) st ca on cl) Hu)
    as (m & extra & cl' & Hsave & _).
  exists extra, m, cl'.
  unfold translateContainerEvents. rewrite HS.
  eapply run_bind.
  { run_step. run_step. rewrite Hsome. repeat run_step.
    rewrite Hsome. repeat run_step. reflexivity. }
  cbv beta. repeat run_step.
  fold_object (overwrite_configs n e)
    ltac:(unfold overwrite_configs; destruct e; by_cases_on n).
  eapply run_bind; [ exact Hsave | ].
  cbn [heap containerCreated containerStarted]. rewrite <- app_assoc.
  rewrite <- app_comm_cons. repeat run_step. reflexivity.
Qed.

Lemma started_first_run (n : container.Event.t) w :
  container.Event.State n = ContainerStarted ->
  map_index (containerStarted w) (container.Event.ID n) = None ->
  cache_usable ext w ->
  exists extra c cl,
    translateContainerEvents ext n w
    = Ret None
          (mkWorld (heap w ++ running_of n :: extra)
                   (containerCreated w)
                   (Some (<[container.Event.ID n := length (heap w)]>
                            (default ∅ (containerStarted w))))
                   (Some (<[container.Event.ID n := length (heap w)]> c)) true cl).
Proof.
  intros HS Hnone Hu. destruct w as [h cr st ca on cl].
  destruct (saveContainerEvent_run ext (container.Event.ID n) (length h)
              (mkWorld (h ++ [running_of n]) cr
                 (Some (<[container.Event.ID n := length h]> (default ∅ st)))
                 ca on cl) Hu)
    as (m & extra & cl' & Hsave & _).
  exists extra, m, cl'.
  unfold translateContainerEvents. rewrite HS. unfold newContainerRunning.
  assert (Hidx : map_index (Some (default ∅ st)) (container.Event.ID n) = None).
  { destruct st; [ exact Hnone | apply lookup_empty ]. }
  eapply run_bind with (a := None); [ | reflexivity ].
  eapply run_bind with (a := tt)
                       (w1 := mkWorld h cr (Some (default ∅ st)) ca on cl).
  { eapply run_bind; [ reflexivity | ]. now destruct st. }
  cbv beta. run_step. rewrite Hidx. repeat run_step.
  rewrite Hidx. repeat run_step.
  fold_object (running_of n) ltac:(unfold running_of; by_cases_on n).
  eapply run_bind; [ exact Hsave | ].
  cbn [heap containerCreated containerStarted]. now rewrite <- app_assoc.
Qed.

Lemma started_second_run (n : container.Event.t) h e t cr st ca on cl :
  container.Event.State n = ContainerStarted ->
  map_index (Some st) (container.Event.ID n) = Some (length h) ->
  cache_usable ext (mkWorld (h ++ e :: t) cr (Some st) ca on cl) ->
  exists extra c cl',
    translateContainerEvents ext n (mkWorld (h ++ e :: t) cr (Some st) ca on cl)
    = Ret (Some (envelope ext (container.Event.ID n) (length h) e))
          (mkWorld (h ++ started_merge n e :: t ++ extra)
                   cr (Some (delete (container.Event.ID n) st))
                   (Some (<[container.Event.ID n := length h]> c)) true cl').
Proof.
  intros HS Hsome Hu.
  destruct (saveContainerEvent_run ext (container.Event.ID n) (length h)
              (mkWorld (h ++ started_merge n e :: t) cr
                 (Some (delete (container.Event.ID n) st)) ca on cl) Hu)
    as (m & extra & cl' & Hsave & _).
  exists extra, m, cl'.
  unfold translateContainerEvents. rewrite HS.
  eapply run_bind.
  { run_step. run_step. rewrite Hsome. repeat run_step.
    rewrite Hsome. repeat run_step. reflexivity. }
  cbv beta. repeat run_step.
  fold_object (started_merge n e)
    ltac:(unfold started_merge, overwrite_configs; destruct e; by_cases_on n).
  eapply run_bind; [ exact Hsave | ].
  cbn [heap containerCreated containerStarted]. rewrite <- app_assoc.
  rewrite <- app_comm_cons. repeat run_step. reflexivity.
Qed.

(** An unknown phase tag stops the translator before it touches anything. *)
Lemma other_run (n : container.Event.t) tag w :
  container.Event.State n = ContainerStateOther tag ->
  translateContainerEvents ext n w = Panic "Invalid value for ContainerState".
Proof.
  intros HS. unfold translateContainerEvents. rewrite HS.
  now apply run_bind_panic.
Qed.

Lemma emitted_envelope w cID h e t e0 :
  heap w = h ++ e :: t ->
  emitted w (envelope ext cID (length h) e0) = Some e.
Proof.
  intros Hh. unfold emitted, envelope. simpl. rewrite Hh.
  now apply list_lookup_middle.
Qed.

Lemma feed_one n w ev w' :
  translateContainerEvents ext n w = Ret (Some ev) w' ->
  feed ext [n] w = Ret [ev] w'.
Proof.
  intros H1. simpl. eapply run_bind; [ exact H1 | ]. reflexivity.
Qed.

Lemma feed_pair n1 n2 w w1 ev w2 :
  translateContainerEvents ext n1 w = Ret None w1 ->
  translateContainerEvents ext n2 w1 = Ret (Some ev) w2 ->
  feed ext [n1; n2] w = Ret [ev] w2.
Proof.
  intros H1 H2. simpl. eapply run_bind; [ exact H1 | ].
  eapply run_bind; [ | reflexivity ].
  eapply run_bind; [ exact H2 | ]. reflexivity.
Qed.

(** Two [Created] notifications for an ID that has no entry in the
    [Created] merge map. *)
Lemma created_pair_run (n1 n2 : container.Event.t) w :
  container.Event.State n1 = ContainerCreated ->
  container.Event.State n2 = ContainerCreated ->
  container.Event.ID n2 = container.Event.ID n1 ->
  map_index (containerCreated w) (container.Event.ID n1) = None ->
  cache_usable ext w ->
  exists w1 w2 extra,
    translateContainerEvents ext n1 w = Ret None w1
    /\ translateContainerEvents ext n2 w1
       = Ret (Some (envelope ext (container.Event.ID n1) (length (heap w)) (created_of n1))) w2
    /\ heap w2 = heap w ++ overwrite_configs n2 (created_of n1) :: extra
    /\ map_index (containerCreated w2) (container.Event.ID n1) = None
    /\ containerStarted w2 = containerStarted w
    /\ map_index (containerCache w2) (container.Event.ID n1) = Some (length (heap w)).
Proof.
  intros HS1 HS2 Hid Hnone Hu.
  destruct (created_first_run n1 w HS1 Hnone Hu) as (x1 & c1 & cl1 & Hrun1).
  assert (Hhit : map_index
                   (Some (<[container.Event.ID n1 := length (heap w)]>
                            (default ∅ (containerCreated w))))
                   (container.Event.ID n2) = Some (length (heap w))).
  { rewrite Hid. apply lookup_insert_eq. }
  destruct (created_second_run n2 (heap w) (created_of n1) x1
              (<[container.Event.ID n1 := length (heap w)]>
                 (default ∅ (containerCreated w)))
              (containerStarted w)
              (Some (<[container.Event.ID n1 := length (heap w)]> c1)) true cl1
              HS2 Hhit)
    as (x2 & c2 & cl2 & Hrun2).
  { unfold cache_usable. simpl. eauto. }
  rewrite Hid in Hrun2.
  eexists _, _, (x1 ++ x2). split; [ exact Hrun1 | ].
  split; [ exact Hrun2 | ]. simpl.
  split; [ reflexivity | ]. split; [ apply lookup_delete_eq | ].
  split; [ reflexivity | apply lookup_insert_eq ].
Qed.

(** Two [Started] notifications for an ID that has no entry in the
    [Started] merge map. *)
Lemma started_pair_run (n1 n2 : container.Event.t) w :
  container.Event.State n1 = ContainerStarted ->
  container.Event.State n2 = ContainerStarted ->
  container.Event.ID n2 = container.Event.ID n1 ->
  map_index (containerStarted w) (container.Event.ID n1) = None ->
  cache_usable ext w ->
  exists w1 w2 extra,
    translateContainerEvents ext n1 w = Ret None w1
    /\ translateContainerEvents ext n2 w1
       = Ret (Some (envelope ext (container.Event.ID n1) (length (heap w)) (running_of n1))) w2
    /\ heap w2 = heap w ++ started_merge n2 (running_of n1) :: extra
    /\ map_index (containerStarted w2) (container.Event.ID n1) = None
    /\ containerCreated w2 = containerCreated w
    /\ map_index (containerCache w2) (container.Event.ID n1) = Some (length (heap w)).
Proof.
  intros HS1 HS2 Hid Hnone Hu.
  destruct (started_first_run n1 w HS1 Hnone Hu) as (x1 & c1 & cl1 & Hrun1).
  assert (Hhit : map_index
                   (Some (<[container.Event.ID n1 := length (heap w)]>
                            (default ∅ (containerStarted w))))
                   (container.Event.ID n2) = Some (length (heap w))).
  { rewrite Hid. apply lookup_insert_eq. }
  destruct (started_second_run n2 (heap w) (running_of n1) x1
              (containerCreated w)
              (<[container.Event.ID n1 := length (heap w)]>
                 (default ∅ (containerStarted w)))
              (Some (<[container.Event.ID n1 := length (heap w)]> c1)) true cl1
              HS2 Hhit)
    as (x2 & c2 & cl2 & Hrun2).
  { unfold cache_usable. simpl. eauto. }
  rewrite Hid in Hrun2.
  eexists _, _, (x1 ++ x2). split; [ exact Hrun1 | ].
  split; [ exact Hrun2 | ]. simpl.
  split; [ reflexivity | ]. split; [ apply lookup_delete_eq | ].
  split; [ reflexivity | apply lookup_insert_eq ].
Qed.

End Translator.

(** ** The cache lookup *)

Section Lookup.

Variable ext : Externals.

Lemma bootstrapped_once w : containerCacheOnce (bootstrapped ext w) = true.
Proof.
  unfold bootstrapped.
  destruct (containerCacheOnce_Do_run ext w) as (c & extra & cl & Hrun & _).
  now rewrite Hrun.
Qed.

Lemma getContainerEvent_hit contId w ce :
  map_index (containerCache (bootstrapped ext w)) contId = Some ce ->
  getContainerEvent ext contId w = Ret (None, None) (bootstrapped ext w).
Proof.
  intros Hhit. unfold getContainerEvent.
  eapply run_bind; [ apply containerCacheOnce_Do_bootstrapped | ].
  eapply run_bind; [ reflexivity | ]. cbv beta. now rewrite Hhit.
Qed.

Lemma getContainerEvent_miss_err contId w err :
  map_index (containerCache (bootstrapped ext w)) contId = None ->
  GetDockerConfig ext (calls (bootstrapped ext w)) contId = Err err ->
  getContainerEvent ext contId w
  = Ret (None, Some err)
        (set_calls (calls (bootstrapped ext w) ++ [CallGetDockerConfig contId])
                   (bootstrapped ext w)).
Proof.
  intros Hmiss Herr. unfold getContainerEvent.
  eapply run_bind; [ apply containerCacheOnce_Do_bootstrapped | ].
  eapply run_bind; [ reflexivity | ]. cbv beta. rewrite Hmiss.
  eapply run_bind; [ reflexivity | ]. cbv beta. now rewrite Herr.
Qed.

Lemma getContainerEvent_miss_ok contId w dc m :
  map_index (containerCache (bootstrapped ext w)) contId = None ->
  GetDockerConfig ext (calls (bootstrapped ext w)) contId = Ok dc ->
  containerCache (bootstrapped ext w) = Some m ->
  getContainerEvent ext contId w
  = Ret (None, None)
        (mkWorld (heap (bootstrapped ext w) ++ [entry_of dc])
                 (containerCreated (bootstrapped ext w))
                 (containerStarted (bootstrapped ext w))
                 (Some (<[contId := length (heap (bootstrapped ext w))]> m))
                 true
                 (calls (bootstrapped ext w) ++ [CallGetDockerConfig contId])).
Proof.
  intros Hmiss Hok Hm. unfold getContainerEvent.
  eapply run_bind; [ apply containerCacheOnce_Do_bootstrapped | ].
  eapply run_bind; [ reflexivity | ]. cbv beta. rewrite Hmiss.
  eapply run_bind; [ reflexivity | ]. cbv beta. rewrite Hok.
  eapply run_bind; [ reflexivity | ]. cbv beta.
  pose proof (bootstrapped_once w) as Hon.
  destruct (bootstrapped ext w) as [h cr st ca on cl]. simpl in *. subst.
  eapply run_bind; [ | reflexivity ].
  unfold saveContainerEvent.
  eapply run_bind; [ reflexivity | ]. reflexivity.
Qed.

(** Whatever the lookup finds, the pointer it hands back is nil. *)
Lemma getContainerEvent_returns_nil contId w r w' :
  getContainerEvent ext contId w = Ret r w' -> fst r = None.
Proof.
  unfold getContainerEvent. intros Hrun.
  unfold bind at 1 in Hrun.
  destruct (containerCacheOnce_Do ext w) as [[] w0|]; [ | discriminate ].
  unfold bind at 1, get in Hrun.
  destruct (map_index (containerCache w0) contId).
  - now inversion Hrun.
  - unfold bind at 1, call_GetDockerConfig in Hrun.
    destruct (GetDockerConfig ext (calls w0) contId).
    + unfold bind at 1, alloc in Hrun. unfold bind at 1 in Hrun.
      destruct (saveContainerEvent ext contId _ _); [ | discriminate ].
      now inversion Hrun.
    + now inversion Hrun.
Qed.

End Lookup.

Example readyWorld_reached : bootstrapped ext_empty initWorld = readyWorld.
Proof. reflexivity. Qed.

Lemma int32_small (x : Z) :
  (- 2 ^ 31 <= x < 2 ^ 31)%Z -> int32 x = x.
Proof. intros Hx. unfold int32. rewrite Z.mod_small; lia. Qed.

(** ** Properties of the translator *)

(** What the code does where the cache map can be written (the behaviour
    C1 reports as a defect): two [Created] notifications for an ID with no
    pending entry emit exactly one event, on the second notification; it
    has phase Created, and its configuration blob A is the second
    notification's when that is non-empty and the first's otherwise. *)
Theorem created_pair_emits_last_nonempty_blob
        ext (n1 n2 : container.Event.t) (w : World) :
  container.Event.State n1 = ContainerCreated ->
  container.Event.State n2 = ContainerCreated ->
  container.Event.ID n2 = container.Event.ID n1 ->
  map_index (containerCreated w) (container.Event.ID n1) = None ->
  cache_usable ext w ->
  exists w1 ev w2 e,
    translateContainerEvents ext n1 w = Ret None w1
    /\ feed ext [n1; n2] w = Ret [ev] w2
    /\ emitted w2 ev = Some e
    /\ ContainerEvent.Type_ e = CONTAINER_EVENT_TYPE_CREATED
    /\ ContainerEvent.DockerConfigJson e
       = (if (0 <? len (container.Event.DockerConfig n2))%nat
          then container.Event.DockerConfig n2
          else container.Event.DockerConfig n1).
Proof.
  intros HS1 HS2 Hid Hnone Hu.
  destruct (created_pair_run ext n1 n2 w HS1 HS2 Hid Hnone Hu)
    as (w1 & w2 & extra & Hrun1 & Hrun2 & Hheap & _).
  exists w1, (envelope ext (container.Event.ID n1) (length (heap w)) (created_of n1)),
         w2, (overwrite_configs n2 (created_of n1)).
  split; [ exact Hrun1 | ].
  split; [ now apply (feed_pair ext n1 n2 w w1) | ].
  split; [ now apply (emitted_envelope ext w2 _ (heap w) _ extra) | ].
  split; reflexivity.
Qed.

Lemma created_pair_emits_last_nonempty_blob_witness :
  container.Event.State created_long = ContainerCreated
  /\ container.Event.State created_short = ContainerCreated
  /\ container.Event.ID created_short = container.Event.ID created_long
  /\ map_index (containerCreated initWorld) (container.Event.ID created_long) = None
  /\ cache_usable ext_empty initWorld
  /\ exists w1 ev w2 e,
       translateContainerEvents ext_empty created_long initWorld = Ret None w1
       /\ feed ext_empty [created_long; created_short] initWorld = Ret [ev] w2
       /\ emitted w2 ev = Some e
       /\ ContainerEvent.Type_ e = CONTAINER_EVENT_TYPE_CREATED
       /\ ContainerEvent.DockerConfigJson e
          = (if (0 <? len (container.Event.DockerConfig created_short))%nat
             then container.Event.DockerConfig created_short
             else container.Event.DockerConfig created_long).
Proof.
  assert (Hu : cache_usable ext_empty initWorld)
    by (unfold cache_usable; simpl; eexists; reflexivity).
  split; [ reflexivity | ]. split; [ reflexivity | ]. split; [ reflexivity | ].
  split; [ reflexivity | ]. split; [ exact Hu | ].
  apply (created_pair_emits_last_nonempty_blob ext_empty created_long created_short
           initWorld); [ reflexivity | reflexivity | reflexivity | reflexivity | exact Hu ].
Defined.

(** C1, as stated, fails: after a first notification with the blob ["ab"]
    and a second with the shorter blob ["a"], the one emitted event carries
    ["a"], not the longer of the two. *)
Lemma created_pair_not_longest_blob :
  exists ev w e,
    feed ext_empty [created_long; created_short] initWorld = Ret [ev] w
    /\ emitted w ev = Some e
    /\ ContainerEvent.DockerConfigJson e = "a"
    /\ container.Event.DockerConfig created_long = "ab"
    /\ (len "a" < len "ab")%nat.
Proof.
  eexists _, _, _. split; [ vm_compute; reflexivity | ].
  split; [ vm_compute; reflexivity | ].
  split; [ reflexivity | ]. split; [ reflexivity | ]. simpl. lia.
Qed.

(** C2, as the code has it: a [Removed] notification emits exactly one
    event of phase Destroyed whose name, image ID, image name, host PID
    and exit code are the zero values and whose configuration blobs are
    the notification's; the emitted object is written to the cache under
    the notification's ID, the other entries of an already bootstrapped
    cache stay as they were, and the merge maps are not touched. *)
Theorem removed_emits_destroyed_and_is_cached
        ext (n : container.Event.t) (w : World) :
  container.Event.State n = ContainerRemoved ->
  cache_usable ext w ->
  exists ev w' p,
    feed ext [n] w = Ret [ev] w'
    /\ Event.Event ev = Some (Event_Container p)
    /\ emitted w' ev
       = Some (ContainerEvent.mk CONTAINER_EVENT_TYPE_DESTROYED "" "" "" 0
                 (container.Event.DockerConfig n) (container.Event.OciConfig n) 0)
    /\ map_index (containerCache w') (container.Event.ID n) = Some p
    /\ cache_kept_except (container.Event.ID n) w w'
    /\ containerCreated w' = containerCreated w
    /\ containerStarted w' = containerStarted w.
Proof.
  intros HS Hu.
  destruct (removed_run ext n w HS Hu) as (extra & c & cl & Hrun & Hdone).
  eexists _, _, (length (heap w)).
  split; [ apply feed_one; exact Hrun | ].
  split; [ reflexivity | ].
  split; [ now apply (emitted_envelope ext _ _ (heap w) _ extra) | ].
  split; [ apply lookup_insert_eq | ].
  split; [ | split; reflexivity ].
  intros Hon contId Hne. rewrite (Hdone Hon). simpl.
  now apply lookup_insert_ne.
Qed.

Lemma removed_emits_destroyed_and_is_cached_witness :
  container.Event.State removed_c2 = ContainerRemoved
  /\ cache_usable ext_empty readyWorld
  /\ exists ev w' p,
       feed ext_empty [removed_c2] readyWorld = Ret [ev] w'
       /\ Event.Event ev = Some (Event_Container p)
       /\ emitted w' ev
          = Some (ContainerEvent.mk CONTAINER_EVENT_TYPE_DESTROYED "" "" "" 0
                    (container.Event.DockerConfig removed_c2)
                    (container.Event.OciConfig removed_c2) 0)
       /\ map_index (containerCache w') (container.Event.ID removed_c2) = Some p
       /\ cache_kept_except (container.Event.ID removed_c2) readyWorld w'
       /\ containerCreated w' = containerCreated readyWorld
       /\ containerStarted w' = containerStarted readyWorld.
Proof.
  assert (Hu : cache_usable ext_empty readyWorld)
    by (unfold cache_usable; simpl; eexists; reflexivity).
  split; [ reflexivity | ]. split; [ exact Hu | ].
  apply (removed_emits_destroyed_and_is_cached ext_empty removed_c2 readyWorld);
    [ reflexivity | exact Hu ].
Defined.

(** C2, as stated, fails: the [Removed] notification for ["c2"] with the
    blob ["{}"] emits a Destroyed event that carries that blob, and the
    cache, which had no entry for ["c2"], has one afterwards. *)
Lemma removed_writes_cache_and_blob :
  exists ev w e,
    feed ext_empty [removed_c2] readyWorld = Ret [ev] w
    /\ emitted w ev = Some e
    /\ ContainerEvent.DockerConfigJson e = "{}"
    /\ map_index (containerCache readyWorld) "c2" = None
    /\ map_index (containerCache w) "c2" = Some 0.
Proof.
  eexists _, _, _. split; [ vm_compute; reflexivity | ].
  split; [ vm_compute; reflexivity | ].
  split; [ reflexivity | ]. split; vm_compute; reflexivity.
Qed.

(** Whatever the PIDs, the merged host PID is the [int32] of the last
    non-zero one. *)
Lemma started_merge_HostPid (n1 n2 : container.Event.t) :
  ContainerEvent.HostPid (started_merge n2 (running_of n1))
  = int32 (last_nonzero_pid n1 n2).
Proof.
  unfold last_nonzero_pid. simpl.
  destruct (container.Event.Pid n2 =? 0)%Z; [ | reflexivity ].
  destruct (container.Event.Pid n1 =? 0)%Z eqn:H1; [ | reflexivity ].
  apply Z.eqb_eq in H1. now rewrite H1.
Qed.

(** Where the cache map can be written, C5 holds: two [Started]
    notifications for an ID with no pending entry, with
    PIDs that fit [int32], emit exactly one event, on the second
    notification; it has phase Running, its host PID is the last non-zero
    PID of the two, and each configuration blob is the second
    notification's when non-empty and the first's otherwise. *)
Theorem started_pair_emits_merged_running
        ext (n1 n2 : container.Event.t) (w : World) :
  container.Event.State n1 = ContainerStarted ->
  container.Event.State n2 = ContainerStarted ->
  container.Event.ID n2 = container.Event.ID n1 ->
  map_index (containerStarted w) (container.Event.ID n1) = None ->
  cache_usable ext w ->
  fits_int32 (container.Event.Pid n1) ->
  fits_int32 (container.Event.Pid n2) ->
  exists w1 ev w2 e,
    translateContainerEvents ext n1 w = Ret None w1
    /\ feed ext [n1; n2] w = Ret [ev] w2
    /\ emitted w2 ev = Some e
    /\ ContainerEvent.Type_ e = CONTAINER_EVENT_TYPE_RUNNING
    /\ ContainerEvent.HostPid e = last_nonzero_pid n1 n2
    /\ ContainerEvent.DockerConfigJson e
       = (if (0 <? len (container.Event.DockerConfig n2))%nat
          then container.Event.DockerConfig n2
          else container.Event.DockerConfig n1)
    /\ ContainerEvent.OciConfigJson e
       = (if (0 <? len (container.Event.OciConfig n2))%nat
          then container.Event.OciConfig n2
          else container.Event.OciConfig n1).
Proof.
  intros HS1 HS2 Hid Hnone Hu Hr1 Hr2.
  destruct (started_pair_run ext n1 n2 w HS1 HS2 Hid Hnone Hu)
    as (w1 & w2 & extra & Hrun1 & Hrun2 & Hheap & _).
  exists w1, (envelope ext (container.Event.ID n1) (length (heap w)) (running_of n1)),
         w2, (started_merge n2 (running_of n1)).
  split; [ exact Hrun1 | ].
  split; [ now apply (feed_pair ext n1 n2 w w1) | ].
  split; [ now apply (emitted_envelope ext w2 _ (heap w) _ extra) | ].
  split; [ reflexivity | ].
  split; [ | split; reflexivity ].
  rewrite started_merge_HostPid. apply int32_small.
  unfold last_nonzero_pid. now destruct (container.Event.Pid n2 =? 0)%Z.
Qed.

Lemma started_pair_emits_merged_running_witness :
  container.Event.State started_docker = ContainerStarted
  /\ container.Event.State started_oci = ContainerStarted
  /\ container.Event.ID started_oci = container.Event.ID started_docker
  /\ map_index (containerStarted initWorld) (container.Event.ID started_docker) = None
  /\ cache_usable ext_empty initWorld
  /\ fits_int32 (container.Event.Pid started_docker)
  /\ fits_int32 (container.Event.Pid started_oci)
  /\ exists w1 ev w2 e,
       translateContainerEvents ext_empty started_docker initWorld = Ret None w1
       /\ feed ext_empty [started_docker; started_oci] initWorld = Ret [ev] w2
       /\ emitted w2 ev = Some e
       /\ ContainerEvent.Type_ e = CONTAINER_EVENT_TYPE_RUNNING
       /\ ContainerEvent.HostPid e = last_nonzero_pid started_docker started_oci
       /\ ContainerEvent.DockerConfigJson e
          = (if (0 <? len (container.Event.DockerConfig started_oci))%nat
             then container.Event.DockerConfig started_oci
             else container.Event.DockerConfig started_docker)
       /\ ContainerEvent.OciConfigJson e
          = (if (0 <? len (container.Event.OciConfig started_oci))%nat
             then container.Event.OciConfig started_oci
             else container.Event.OciConfig started_docker).
Proof.
  assert (Hu : cache_usable ext_empty initWorld)
    by (unfold cache_usable; simpl; eexists; reflexivity).
  split; [ reflexivity | ]. split; [ reflexivity | ]. split; [ reflexivity | ].
  split; [ reflexivity | ]. split; [ exact Hu | ].
  assert (H1 : fits_int32 (container.Event.Pid started_docker))
    by (unfold fits_int32; simpl; lia).
  assert (H2 : fits_int32 (container.Event.Pid started_oci))
    by (unfold fits_int32; simpl; lia).
  split; [ exact H1 | ]. split; [ exact H2 | ].
  apply (started_pair_emits_merged_running ext_empty started_docker started_oci
           initWorld);
    [ reflexivity | reflexivity | reflexivity | reflexivity | exact Hu
    | exact H1 | exact H2 ].
Defined.

(** Where the cache map can be written, C7 holds: a [Stopped]
    notification, whatever the merge maps hold, emits
    exactly one event; it has phase Exited and the notification's exit
    code, and the merge maps are left as they were. *)
Theorem stopped_emits_exited_with_exit_code
        ext (n : container.Event.t) (w : World) :
  container.Event.State n = ContainerStopped ->
  cache_usable ext w ->
  exists ev w' e,
    feed ext [n] w = Ret [ev] w'
    /\ emitted w' ev = Some e
    /\ ContainerEvent.Type_ e = CONTAINER_EVENT_TYPE_EXITED
    /\ ContainerEvent.ExitCode e = container.Event.ExitCode n
    /\ containerCreated w' = containerCreated w
    /\ containerStarted w' = containerStarted w.
Proof.
  intros HS Hu.
  destruct (stopped_run ext n w HS Hu) as (extra & c & cl & Hrun).
  eexists _, _, (exited_of n).
  split; [ apply feed_one; exact Hrun | ].
  split; [ now apply (emitted_envelope ext _ _ (heap w) _ extra) | ].
  repeat split; reflexivity.
Qed.

Lemma stopped_emits_exited_with_exit_code_witness :
  container.Event.State stopped_c1 = ContainerStopped
  /\ cache_usable ext_empty initWorld
  /\ exists ev w' e,
       feed ext_empty [stopped_c1] initWorld = Ret [ev] w'
       /\ emitted w' ev = Some e
       /\ ContainerEvent.Type_ e = CONTAINER_EVENT_TYPE_EXITED
       /\ ContainerEvent.ExitCode e = container.Event.ExitCode stopped_c1
       /\ containerCreated w' = containerCreated initWorld
       /\ containerStarted w' = containerStarted initWorld.
Proof.
  assert (Hu : cache_usable ext_empty initWorld)
    by (unfold cache_usable; simpl; eexists; reflexivity).
  split; [ reflexivity | ]. split; [ exact Hu | ].
  apply (stopped_emits_exited_with_exit_code ext_empty stopped_c1 initWorld);
    [ reflexivity | exact Hu ].
Defined.

(** C8: a notification whose phase tag is none of Created, Started,
    Stopped and Removed makes the translator panic, in every state, and
    with it the translation of the stream it is part of. *)
Theorem unknown_phase_is_fatal
        ext (n : container.Event.t) (tag : Z) (rest : list container.Event.t)
        (w : World) :
  container.Event.State n = ContainerStateOther tag ->
  translateContainerEvents ext n w = Panic "Invalid value for ContainerState"
  /\ feed ext (n :: rest) w = Panic "Invalid value for ContainerState".
Proof.
  intros HS. pose proof (other_run ext n tag w HS) as Hp.
  split; [ exact Hp | ]. simpl. now apply run_bind_panic.
Qed.

Lemma unknown_phase_is_fatal_witness :
  container.Event.State bad_phase = ContainerStateOther 99
  /\ translateContainerEvents ext_empty bad_phase initWorld
     = Panic "Invalid value for ContainerState"
  /\ feed ext_empty [bad_phase; stopped_c1] initWorld
     = Panic "Invalid value for ContainerState".
Proof.
  split; [ reflexivity | ].
  apply (unknown_phase_is_fatal ext_empty bad_phase 99 [stopped_c1] initWorld).
  reflexivity.
Defined.

(** C9: when the ID is not in the cache after the bootstrap and the single
    lookup fails, [getContainerEvent] returns that error with a nil
    pointer; the cache map and the heap are those the bootstrap left, so
    the ID still has no entry. *)
Theorem failed_single_lookup_propagates_error
        ext (contId : string) (err : error) (w : World) :
  map_index (containerCache (bootstrapped ext w)) contId = None ->
  GetDockerConfig ext (calls (bootstrapped ext w)) contId = Err err ->
  exists w',
    getContainerEvent ext contId w = Ret (None, Some err) w'
    /\ containerCache w' = containerCache (bootstrapped ext w)
    /\ heap w' = heap (bootstrapped ext w)
    /\ map_index (containerCache w') contId = None.
Proof.
  intros Hmiss Herr. eexists.
  split; [ now apply getContainerEvent_miss_err | ].
  split; [ reflexivity | ]. split; [ reflexivity | exact Hmiss ].
Qed.

Lemma failed_single_lookup_propagates_error_witness :
  map_index (containerCache (bootstrapped ext_unknown initWorld)) "c9" = None
  /\ GetDockerConfig ext_unknown (calls (bootstrapped ext_unknown initWorld)) "c9"
     = Err "no such container"
  /\ exists w',
       getContainerEvent ext_unknown "c9" initWorld
       = Ret (None, Some "no such container") w'
       /\ containerCache w' = containerCache (bootstrapped ext_unknown initWorld)
       /\ heap w' = heap (bootstrapped ext_unknown initWorld)
       /\ map_index (containerCache w') "c9" = None.
Proof.
  split; [ reflexivity | ]. split; [ reflexivity | ].
  apply (failed_single_lookup_propagates_error ext_unknown "c9"
           "no such container" initWorld); reflexivity.
Defined.

(** C10: the event emitted for two [Started] notifications has an empty
    container name, image ID and image name, and so has the envelope built
    around it. *)
Theorem started_pair_envelope_has_empty_names
        ext (n1 n2 : container.Event.t) (w : World) :
  container.Event.State n1 = ContainerStarted ->
  container.Event.State n2 = ContainerStarted ->
  container.Event.ID n2 = container.Event.ID n1 ->
  map_index (containerStarted w) (container.Event.ID n1) = None ->
  cache_usable ext w ->
  exists ev w2 e,
    feed ext [n1; n2] w = Ret [ev] w2
    /\ emitted w2 ev = Some e
    /\ ContainerEvent.Type_ e = CONTAINER_EVENT_TYPE_RUNNING
    /\ ContainerEvent.Name e = ""
    /\ ContainerEvent.ImageId e = ""
    /\ ContainerEvent.ImageName e = ""
    /\ Event.ContainerName ev = ""
    /\ Event.ImageId ev = ""
    /\ Event.ImageName ev = "".
Proof.
  intros HS1 HS2 Hid Hnone Hu.
  destruct (started_pair_run ext n1 n2 w HS1 HS2 Hid Hnone Hu)
    as (w1 & w2 & extra & Hrun1 & Hrun2 & Hheap & _).
  exists (envelope ext (container.Event.ID n1) (length (heap w)) (running_of n1)),
         w2, (started_merge n2 (running_of n1)).
  split; [ now apply (feed_pair ext n1 n2 w w1) | ].
  split; [ now apply (emitted_envelope ext w2 _ (heap w) _ extra) | ].
  repeat split; reflexivity.
Qed.

Lemma started_pair_envelope_has_empty_names_witness :
  container.Event.State started_docker = ContainerStarted
  /\ container.Event.State started_oci = ContainerStarted
  /\ container.Event.ID started_oci = container.Event.ID started_docker
  /\ map_index (containerStarted initWorld) (container.Event.ID started_docker) = None
  /\ cache_usable ext_empty initWorld
  /\ exists ev w2 e,
       feed ext_empty [started_docker; started_oci] initWorld = Ret [ev] w2
       /\ emitted w2 ev = Some e
       /\ ContainerEvent.Type_ e = CONTAINER_EVENT_TYPE_RUNNING
       /\ ContainerEvent.Name e = ""
       /\ ContainerEvent.ImageId e = ""
       /\ ContainerEvent.ImageName e = ""
       /\ Event.ContainerName ev = ""
       /\ Event.ImageId ev = ""
       /\ Event.ImageName ev = "".
Proof.
  assert (Hu : cache_usable ext_empty initWorld)
    by (unfold cache_usable; simpl; eexists; reflexivity).
  split; [ reflexivity | ]. split; [ reflexivity | ]. split; [ reflexivity | ].
  split; [ reflexivity | ]. split; [ exact Hu | ].
  apply (started_pair_envelope_has_empty_names ext_empty started_docker started_oci
           initWorld); [ reflexivity | reflexivity | reflexivity | reflexivity | exact Hu ].
Defined.

(** ** Where the code parts from its description *)

(** C3, at the failing input: after the two [Created] notifications for
    ["c1"] the cache map holds the very object that was emitted, yet
    [getContainerEvent "c1"] hands back a nil pointer (and a nil error). *)
Theorem cached_created_event_lookup_returns_nil :
  exists ev w e,
    feed ext_empty [created_long; created_short] initWorld = Ret [ev] w
    /\ Event.Event ev = Some (Event_Container 0)
    /\ emitted w ev = Some e
    /\ map_index (containerCache w) "c1" = Some 0
    /\ getContainerEvent ext_empty "c1" w = Ret (None, None) w.
Proof.
  eexists _, _, _. split; [ vm_compute; reflexivity | ].
  split; [ reflexivity | ]. split; [ vm_compute; reflexivity | ].
  split; vm_compute; reflexivity.
Qed.

(** C4, at the failing input: on a miss the single lookup is called once,
    the entry is built with the [sha256:] prefix stripped and stored, and
    a second lookup calls nothing; but both lookups return a nil pointer
    instead of the entry. *)
Theorem miss_lookup_returns_nil_entry :
  exists w1,
    getContainerEvent ext_empty "c1" initWorld = Ret (None, None) w1
    /\ calls w1 = [CallGetDockerConfigList; CallGetDockerConfig "c1"]
    /\ map_index (containerCache w1) "c1" = Some 0
    /\ heap w1 !! 0
       = Some (ContainerEvent.mk CONTAINER_EVENT_TYPE_UNKNOWN
                 "web" "abc" "nginx" 0 "" "" 0)
    /\ getContainerEvent ext_empty "c1" w1 = Ret (None, None) w1.
Proof.
  eexists. split; [ vm_compute; reflexivity | ].
  split; [ reflexivity | ]. split; [ vm_compute; reflexivity | ].
  split; vm_compute; reflexivity.
Qed.

(** C6, at the failing input: when the enumeration fails the bootstrap
    leaves the nil map, and the first write to it panics: a direct
    [saveContainerEvent], a [getContainerEvent] whose single lookup
    succeeds, and the translation of any notification. *)
Theorem failed_bootstrap_put_panics :
  containerCache (bootstrapped ext_down initWorld) = None
  /\ (ce <- alloc (ContainerEvent.zero CONTAINER_EVENT_TYPE_UNKNOWN) ;;
      saveContainerEvent ext_down "c1" ce) initWorld
     = Panic "assignment to entry in nil map"
  /\ getContainerEvent ext_down "c1" initWorld
     = Panic "assignment to entry in nil map"
  /\ translateContainerEvents ext_down stopped_c1 initWorld
     = Panic "assignment to entry in nil map".
Proof. repeat split; vm_compute; reflexivity. Qed.

(** ** The bootstrap, exactly *)

Section BootstrapExact.

Variable ext : Externals.

Lemma newContainerCache_range_eq l :
  forall contCache w,
    newContainerCache_range l contCache w
    = Ret (range_map l (length (heap w)) contCache)
          (set_heap (heap w ++ map boot_entry l) w).
Proof.
  induction l as [|dc l IH]; intros contCache w.
  - simpl. unfold ret. rewrite app_nil_r. now destruct w.
  - simpl. eapply run_bind; [ reflexivity | ].
    etransitivity; [ apply IH | ].
    destruct w as [h cr st ca on cl]. unfold set_heap. simpl.
    rewrite length_app, Nat.add_1_r, <- app_assoc. reflexivity.
Qed.

Lemma bootstrapped_ok w l :
  containerCacheOnce w = false ->
  GetDockerConfigList ext (calls w) = Ok l ->
  bootstrapped ext w
  = mkWorld (heap w ++ map boot_entry l) (containerCreated w) (containerStarted w)
            (Some (range_map l (length (heap w)) ∅)) true
            (calls w ++ [CallGetDockerConfigList]).
Proof.
  intros Hoff Hl. destruct w as [h cr st ca on cl]. simpl in *. subst on.
  unfold bootstrapped.
  assert (Hrun : containerCacheOnce_Do ext (mkWorld h cr st ca false cl)
                 = Ret tt (mkWorld (h ++ map boot_entry l) cr st
                             (Some (range_map l (length h) ∅)) true
                             (cl ++ [CallGetDockerConfigList]))).
  { unfold containerCacheOnce_Do. eapply run_bind; [ reflexivity | ].
    simpl. eapply run_bind.
    { unfold newContainerCache. eapply run_bind; [ reflexivity | ].
      simpl. rewrite Hl.
      eapply run_bind; [ apply newContainerCache_range_eq | ]. reflexivity. }
    reflexivity. }
  now rewrite Hrun.
Qed.

Lemma bootstrapped_err w e :
  containerCacheOnce w = false ->
  GetDockerConfigList ext (calls w) = Err e ->
  bootstrapped ext w
  = mkWorld (heap w) (containerCreated w) (containerStarted w) None true
            (calls w ++ [CallGetDockerConfigList]).
Proof.
  intros Hoff Hl. destruct w as [h cr st ca on cl]. simpl in *. subst on.
  unfold bootstrapped.
  assert (Hrun : containerCacheOnce_Do ext (mkWorld h cr st ca false cl)
                 = Ret tt (mkWorld h cr st None true
                             (cl ++ [CallGetDockerConfigList]))).
  { unfold containerCacheOnce_Do. eapply run_bind; [ reflexivity | ].
    simpl. eapply run_bind.
    { unfold newContainerCache. eapply run_bind; [ reflexivity | ].
      simpl. rewrite Hl. reflexivity. }
    reflexivity. }
  now rewrite Hrun.
Qed.

Lemma saveContainerEvent_eq contId ce w :
  saveContainerEvent ext contId ce w
  = match containerCache (bootstrapped ext w) with
    | Some m => Ret tt (set_containerCache (Some (<[contId := ce]> m))
                                           (bootstrapped ext w))
    | None => Panic "assignment to entry in nil map"
    end.
Proof.
  unfold saveContainerEvent.
  eapply run_bind; [ apply containerCacheOnce_Do_bootstrapped | ].
  unfold bind, get. now destruct (containerCache (bootstrapped ext w)).
Qed.

End BootstrapExact.

(** ** What the bootstrap caches *)

Lemma lookup_map_boot_entry (l : list DockerConfig.t) i :
  map boot_entry l !! i = boot_entry <$> (l !! i).
Proof.
  revert i. induction l as [|dc l IH]; intros [|i]; simpl; auto.
Qed.

(** A key of the built map is as it was, or is that of a listed container
    and points to that container's object. *)
Lemma range_map_lookup_cases l :
  forall base (m : gmap string loc) k,
    range_map l base m !! k = m !! k
    \/ exists i dc, l !! i = Some dc /\ DockerConfig.ID dc = k
                    /\ range_map l base m !! k = Some (base + i).
Proof.
  induction l as [|dc l IH]; intros base m k; simpl.
  - now left.
  - destruct (IH (S base) (<[DockerConfig.ID dc := base]> m) k)
      as [Hsame | (i & dc' & Hi & Hid & Hk)].
    + destruct (decide (DockerConfig.ID dc = k)) as [Heq | Hne].
      * right. exists 0, dc. subst k. split; [ reflexivity | ].
        split; [ reflexivity | ]. rewrite Nat.add_0_r.
        etransitivity; [ exact Hsame | ]. apply lookup_insert_eq.
      * left. etransitivity; [ exact Hsame | ]. now apply lookup_insert_ne.
    + right. exists (S i), dc'. split; [ exact Hi | ]. split; [ exact Hid | ].
      etransitivity; [ exact Hk | ]. f_equal. lia.
Qed.

(** Every listed container's ID is a key of the built map. *)
Lemma range_map_lookup_listed l :
  forall base (m : gmap string loc) dc,
    dc ∈ l -> is_Some (range_map l base m !! DockerConfig.ID dc).
Proof.
  induction l as [|d l IH]; intros base m dc Hin.
  - now apply elem_of_nil in Hin.
  - simpl. apply elem_of_cons in Hin as [-> | Hin]; [ | now apply IH ].
    destruct (range_map_lookup_cases l (S base)
                (<[DockerConfig.ID d := base]> m) (DockerConfig.ID d))
      as [Hs | (i & dc' & _ & _ & Hk)].
    + exists base. etransitivity; [ exact Hs | ]. apply lookup_insert_eq.
    + eexists. exact Hk.
Qed.

Section BootstrapContent.

Variable ext : Externals.

(** X1: a first cache access whose enumeration succeeds leaves one object
    per enumerated container at the end of the heap, caches every
    enumerated ID with the object of a listed container of that ID, and
    caches nothing else; the image ID is stored as reported. *)
Theorem bootstrap_caches_the_enumeration (w : World) (l : list DockerConfig.t) :
  containerCacheOnce w = false ->
  GetDockerConfigList ext (calls w) = Ok l ->
  heap (bootstrapped ext w) = heap w ++ map boot_entry l
  /\ (forall dc, dc ∈ l ->
        exists p dc', dc' ∈ l /\ DockerConfig.ID dc' = DockerConfig.ID dc
          /\ map_index (containerCache (bootstrapped ext w)) (DockerConfig.ID dc) = Some p
          /\ heap (bootstrapped ext w) !! p = Some (boot_entry dc'))
  /\ (forall k p,
        map_index (containerCache (bootstrapped ext w)) k = Some p ->
        exists dc, dc ∈ l /\ DockerConfig.ID dc = k
          /\ heap (bootstrapped ext w) !! p = Some (boot_entry dc)).
Proof.
  intros Hoff Hl. rewrite (bootstrapped_ok ext w l Hoff Hl). simpl.
  assert (Hobj : forall i dc, l !! i = Some dc ->
            (heap w ++ map boot_entry l) !! (length (heap w) + i)
            = Some (boot_entry dc)).
  { intros i dc Hi. rewrite lookup_app_r by lia.
    replace (length (heap w) + i - length (heap w)) with i by lia.
    rewrite lookup_map_boot_entry, Hi. reflexivity. }
  split; [ reflexivity | ]. split.
  - intros dc Hin. apply list_elem_of_lookup in Hin as [j Hj].
    destruct (range_map_lookup_cases l (length (heap w)) ∅ (DockerConfig.ID dc))
      as [Hsame | (i & dc' & Hi & Hid & Hk)].
    + exfalso.
      destruct (range_map_lookup_listed l (length (heap w)) ∅ dc) as [p Hp].
      { apply list_elem_of_lookup; eauto. }
      pose proof (eq_trans (eq_sym Hp) Hsame) as Hno.
      rewrite lookup_empty in Hno. discriminate.
    + exists (length (heap w) + i), dc'.
      split; [ apply list_elem_of_lookup; eauto | ].
      split; [ exact Hid | ]. split; [ exact Hk | now apply Hobj ].
  - intros k p Hp.
    destruct (range_map_lookup_cases l (length (heap w)) ∅ k)
      as [Hsame | (i & dc & Hi & Hid & Hk)].
    + pose proof (eq_trans (eq_sym Hp) Hsame) as Hno.
      rewrite lookup_empty in Hno. discriminate.
    + pose proof (eq_trans (eq_sym Hp) Hk) as Heq. inversion Heq; subst p.
      exists dc. split; [ apply list_elem_of_lookup; eauto | ].
      split; [ exact Hid | now apply Hobj ].
Qed.

End BootstrapContent.

(** ** Relations every returning call keeps *)

Section Keeps.

Variable R : World -> World -> Prop.
Hypothesis R_frame : forall w w', same_cache_state w w' -> R w w'.
Hypothesis R_trans : forall w1 w2 w3, R w1 w2 -> R w2 w3 -> R w1 w3.

Lemma keeps_ret {A} (a : A) : keeps R (ret a).
Proof.
  intros w a' w' Hrun. inversion Hrun; subst. apply R_frame.
  repeat split.
Qed.

Lemma keeps_panic {A} msg : keeps R (@panic A msg).
Proof. intros w a w' Hrun. discriminate. Qed.

Lemma keeps_get : keeps R get.
Proof.
  intros w a w' Hrun. inversion Hrun; subst. apply R_frame. repeat split.
Qed.

Lemma keeps_bind {A B} (c : M A) (k : A -> M B) :
  keeps R c -> (forall a, keeps R (k a)) -> keeps R (bind c k).
Proof.
  intros Hc Hk w b w' Hrun. unfold bind in Hrun.
  destruct (c w) as [a w1|] eqn:Hcw; [ | discriminate ].
  eapply R_trans; [ eapply Hc; exact Hcw | eapply Hk; exact Hrun ].
Qed.

Lemma keeps_modify (f : World -> World) :
  (forall w, same_cache_state w (f w)) -> keeps R (modify f).
Proof.
  intros Hf w a w' Hrun. inversion Hrun; subst. apply R_frame, Hf.
Qed.

Lemma keeps_alloc e : keeps R (alloc e).
Proof.
  intros w a w' Hrun. inversion Hrun; subst. apply R_frame. repeat split.
Qed.

Lemma keeps_load p : keeps R (load p).
Proof.
  intros w a w' Hrun. unfold load in Hrun.
  destruct (heap w !! p); inversion Hrun; subst. apply R_frame. repeat split.
Qed.

Lemma keeps_assign p f : keeps R (assign p f).
Proof.
  apply keeps_bind; [ apply keeps_load | ].
  intros e. apply keeps_modify. intros w. repeat split.
Qed.

Lemma keeps_when (b : bool) (c : M unit) : keeps R c -> keeps R (when b c).
Proof. intros Hc. destruct b; [ exact Hc | apply keeps_ret ]. Qed.

Variable ext : Externals.
Hypothesis R_save : forall contId ce, keeps R (saveContainerEvent ext contId ce).

Ltac keeps_step :=
  first
    [ apply keeps_ret | apply keeps_get | apply keeps_panic
    | apply keeps_alloc | apply keeps_load | apply keeps_assign
    | apply keeps_when | apply R_save
    | apply keeps_modify; intros ?; repeat split
    | apply keeps_bind; [ | intros ? ]
    | match goal with
      | |- keeps _ (match ?x with _ => _ end) => destruct x
      end ].

(** The translator changes the cache, the [Once] and the call log only
    through [saveContainerEvent]. *)
Lemma translateContainerEvents_keeps ce :
  keeps R (translateContainerEvents ext ce).
Proof.
  unfold translateContainerEvents, newContainerCreated, newContainerRunning,
    newContainerExited, newContainerDestroyed.
  repeat keeps_step.
Qed.

Lemma feed_keeps notifications : keeps R (feed ext notifications).
Proof.
  induction notifications as [|ce rest IH]; simpl.
  - apply keeps_ret.
  - apply keeps_bind; [ apply translateContainerEvents_keeps | intros r ].
    apply keeps_bind; [ exact IH | intros evs; apply keeps_ret ].
Qed.

Hypothesis R_once : keeps R (containerCacheOnce_Do ext).
Hypothesis R_call : forall contId, keeps R (call_GetDockerConfig ext contId).

(** The lookup changes them only through the [Once], the single lookup
    and [saveContainerEvent]. *)
Lemma getContainerEvent_keeps contId :
  keeps R (getContainerEvent ext contId).
Proof.
  unfold getContainerEvent.
  apply keeps_bind; [ apply R_once | intros _ ].
  apply keeps_bind; [ apply keeps_get | intros w ].
  destruct (map_index (containerCache w) contId); [ apply keeps_ret | ].
  apply keeps_bind; [ apply R_call | intros [dc | err] ]; [ | apply keeps_ret ].
  repeat keeps_step.
Qed.

Lemma run_op_keeps op : keeps R (run_op ext op).
Proof.
  destruct op; simpl; (apply keeps_bind; [ | intros ?; apply keeps_ret ]).
  - apply translateContainerEvents_keeps.
  - apply getContainerEvent_keeps.
Qed.

Lemma run_ops_keeps ops : keeps R (run_ops ext ops).
Proof.
  induction ops as [|op ops IH]; simpl.
  - apply keeps_ret.
  - apply keeps_bind; [ apply run_op_keeps | intros _; exact IH ].
Qed.

End Keeps.

Lemma enumerations_app cl cl' :
  enumerations (cl ++ cl') = enumerations cl + enumerations cl'.
Proof. unfold enumerations. now rewrite List.filter_app, length_app. Qed.

Lemma lookups_app cl cl' :
  lookups (cl ++ cl') = lookups cl + lookups cl'.
Proof. unfold lookups. now rewrite List.filter_app, length_app. Qed.

Section Evolves.

Variable ext : Externals.

Lemma evolves_frame w w' : same_cache_state w w' -> evolves w w'.
Proof.
  intros (Hc & Ho & Hl). unfold evolves. rewrite Hc, Ho, Hl.
  split; [ auto | ]. split; [ | auto ].
  destruct (containerCacheOnce w); lia.
Qed.

Lemma evolves_trans w1 w2 w3 : evolves w1 w2 -> evolves w2 w3 -> evolves w1 w3.
Proof.
  intros (Ho1 & He1 & Hk1) (Ho2 & He2 & Hk2). unfold evolves.
  split; [ auto | ]. split; [ | auto ].
  destruct (containerCacheOnce w1), (containerCacheOnce w2),
    (containerCacheOnce w3); try lia;
    try (specialize (Ho1 eq_refl)); try (specialize (Ho2 eq_refl));
    discriminate.
Qed.

Lemma bootstrapped_evolves w : evolves w (bootstrapped ext w).
Proof.
  destruct (containerCacheOnce w) eqn:Hon.
  - rewrite (bootstrapped_done ext w Hon). apply evolves_frame. repeat split.
  - unfold evolves. rewrite Hon.
    split; [ discriminate | ]. split; [ | discriminate ].
    destruct (GetDockerConfigList ext (calls w)) as [l | e] eqn:Hl.
    + rewrite (bootstrapped_ok ext w l Hon Hl). cbn [calls containerCacheOnce].
      rewrite enumerations_app.
      change (enumerations [CallGetDockerConfigList]) with 1. lia.
    + rewrite (bootstrapped_err ext w e Hon Hl). cbn [calls containerCacheOnce].
      rewrite enumerations_app.
      change (enumerations [CallGetDockerConfigList]) with 1. lia.
Qed.

Lemma containerCacheOnce_Do_evolves : keeps evolves (containerCacheOnce_Do ext).
Proof.
  intros w a w' Hrun. rewrite containerCacheOnce_Do_bootstrapped in Hrun.
  inversion Hrun; subst. apply bootstrapped_evolves.
Qed.

Lemma saveContainerEvent_evolves contId ce :
  keeps evolves (saveContainerEvent ext contId ce).
Proof.
  intros w a w' Hrun. rewrite saveContainerEvent_eq in Hrun.
  destruct (containerCache (bootstrapped ext w)) as [m|] eqn:Hm;
    [ | discriminate ].
  inversion Hrun; subst. eapply evolves_trans; [ apply bootstrapped_evolves | ].
  pose proof (bootstrapped_once ext w) as Hon.
  unfold evolves, set_containerCache. simpl. rewrite Hon, Hm.
  split; [ auto | ]. split; [ lia | ]. intros _ k [p Hp].
  simpl in *. destruct (decide (contId = k)) as [-> | Hne].
  - rewrite lookup_insert_eq. eauto.
  - rewrite lookup_insert_ne by exact Hne. eauto.
Qed.

Lemma call_GetDockerConfig_evolves contId :
  keeps evolves (call_GetDockerConfig ext contId).
Proof.
  intros w a w' Hrun. inversion Hrun; subst. unfold evolves.
  cbn [calls containerCacheOnce containerCache set_calls].
  rewrite enumerations_app.
  change (enumerations [CallGetDockerConfig contId]) with 0.
  split; [ auto | ]. split; [ | auto ].
  destruct (containerCacheOnce w); lia.
Qed.

(** X2: over any sequence of translations and lookups that return, the
    container enumeration is called at most once, and not at all when the
    [Once] had already run, even if that one enumeration failed. *)
Theorem enumeration_runs_at_most_once (ops : list Op) (w w' : World) :
  run_ops ext ops w = Ret tt w' ->
  enumerations (calls w')
  <= enumerations (calls w) + (if containerCacheOnce w then 0 else 1).
Proof.
  intros Hrun.
  destruct (run_ops_keeps evolves evolves_frame evolves_trans ext
              saveContainerEvent_evolves containerCacheOnce_Do_evolves
              call_GetDockerConfig_evolves ops w tt w' Hrun) as (_ & He & _).
  destruct (containerCacheOnce w), (containerCacheOnce w'); lia.
Qed.

(** X3: no sequence of translations and lookups that return removes a key
    from a bootstrapped cache; a [Removed] notification in particular
    evicts nothing. *)
Theorem cache_never_evicts (ops : list Op) (w w' : World) (k : string) :
  run_ops ext ops w = Ret tt w' ->
  containerCacheOnce w = true ->
  is_Some (map_index (containerCache w) k) ->
  is_Some (map_index (containerCache w') k).
Proof.
  intros Hrun Hon Hk.
  destruct (run_ops_keeps evolves evolves_frame evolves_trans ext
              saveContainerEvent_evolves containerCacheOnce_Do_evolves
              call_GetDockerConfig_evolves ops w tt w' Hrun) as (_ & _ & Hmono).
  now apply Hmono.
Qed.

End Evolves.

Section OnlyBootstraps.

Variable ext : Externals.

Lemma only_bootstraps_frame w w' : same_cache_state w w' -> only_bootstraps w w'.
Proof.
  intros (_ & Ho & Hl). unfold only_bootstraps. rewrite Ho, Hl.
  split; [ auto | intros Hoff; left; auto ].
Qed.

Lemma only_bootstraps_trans w1 w2 w3 :
  only_bootstraps w1 w2 -> only_bootstraps w2 w3 -> only_bootstraps w1 w3.
Proof.
  intros (Ht1 & Hf1) (Ht2 & Hf2). unfold only_bootstraps. split.
  - intros Hon. destruct (Ht1 Hon) as (Hon2 & Hc2).
    destruct (Ht2 Hon2) as (Hon3 & Hc3). split; congruence.
  - intros Hoff. destruct (Hf1 Hoff) as [(Hoff2 & Hc2) | (Hon2 & Hc2)].
    + destruct (Hf2 Hoff2) as [(Hoff3 & Hc3) | (Hon3 & Hc3)].
      * left. split; congruence.
      * right. split; congruence.
    + destruct (Ht2 Hon2) as (Hon3 & Hc3). right. split; congruence.
Qed.

Lemma saveContainerEvent_only_bootstraps contId ce :
  keeps only_bootstraps (saveContainerEvent ext contId ce).
Proof.
  intros w a w' Hrun. rewrite saveContainerEvent_eq in Hrun.
  destruct (containerCache (bootstrapped ext w)) as [m|] eqn:Hm;
    [ | discriminate ].
  inversion Hrun; subst. unfold only_bootstraps, set_containerCache.
  cbn [containerCacheOnce calls]. split.
  - intros Hon. rewrite (bootstrapped_done ext w Hon). auto.
  - intros Hoff. right.
    destruct (GetDockerConfigList ext (calls w)) as [l | e] eqn:Hl.
    + rewrite (bootstrapped_ok ext w l Hoff Hl). auto.
    + rewrite (bootstrapped_err ext w e Hoff Hl). auto.
Qed.

(** X4: translating a stream never calls the single-container lookup; it
    calls nothing at all once the [Once] has run, and otherwise at most
    the one enumeration. *)
Theorem translator_only_bootstraps
        (notifications : list container.Event.t) (w : World)
        (evs : list Event.t) (w' : World) :
  feed ext notifications w = Ret evs w' ->
  lookups (calls w') = lookups (calls w)
  /\ (calls w' = calls w \/ calls w' = calls w ++ [CallGetDockerConfigList])
  /\ (if containerCacheOnce w then calls w' = calls w else True).
Proof.
  intros Hrun.
  destruct (feed_keeps only_bootstraps only_bootstraps_frame
              only_bootstraps_trans ext saveContainerEvent_only_bootstraps
              notifications w evs w' Hrun) as (Ht & Hf).
  destruct (containerCacheOnce w).
  - destruct (Ht eq_refl) as (_ & Hc). rewrite Hc. auto.
  - destruct (Hf eq_refl) as [(_ & Hc) | (_ & Hc)]; rewrite Hc.
    + auto.
    + rewrite lookups_app. change (lookups [CallGetDockerConfigList]) with 0.
      split; [ lia | auto ].
Qed.

End OnlyBootstraps.

(** ** The translator does not panic on a sound state *)

Lemma ptrs_valid_mono m (h h' : list ContainerEvent.t) :
  ptrs_valid m h -> length h <= length h' -> ptrs_valid m h'.
Proof. intros Hv Hle k p Hk. specialize (Hv k p Hk). lia. Qed.

Lemma ptrs_valid_insert (g : gmap string loc) (h : list ContainerEvent.t) k p :
  ptrs_valid (Some g) h -> p < length h -> ptrs_valid (Some (<[k := p]> g)) h.
Proof.
  intros Hv Hp k' p' Hk. simpl in Hk.
  destruct (decide (k = k')) as [-> | Hne].
  - rewrite lookup_insert_eq in Hk. inversion Hk; subst. exact Hp.
  - rewrite lookup_insert_ne in Hk by exact Hne. now apply (Hv k').
Qed.

Lemma ptrs_valid_delete (g : gmap string loc) (h : list ContainerEvent.t) k :
  ptrs_valid (Some g) h -> ptrs_valid (Some (delete k g)) h.
Proof.
  intros Hv k' p' Hk. simpl in Hk.
  destruct (decide (k = k')) as [-> | Hne].
  - rewrite lookup_delete_eq in Hk. discriminate.
  - rewrite lookup_delete_ne in Hk by exact Hne. now apply (Hv k').
Qed.

Lemma ptrs_valid_default m (h : list ContainerEvent.t) :
  ptrs_valid m h -> ptrs_valid (Some (default ∅ m)) h.
Proof.
  intros Hv. destruct m as [g|]; [ exact Hv | ].
  intros k p Hk. simpl in Hk. rewrite lookup_empty in Hk. discriminate.
Qed.

Section Total.

Variable ext : Externals.

(** One notification with a known phase, on a state whose merge maps
    point into the heap and whose cache can be written: the translator
    returns, at most one event, and leaves such a state, with the
    notification's ID in the cache. *)
Lemma translateContainerEvents_returns (n : container.Event.t) (w : World) :
  known_phase n ->
  buffers_valid w ->
  cache_usable ext w ->
  exists r w',
    translateContainerEvents ext n w = Ret r w'
    /\ buffers_valid w'
    /\ containerCacheOnce w' = true
    /\ is_Some (map_index (containerCache w') (container.Event.ID n)).
Proof.
  intros Hknown [Hvc Hvs] Hu. unfold known_phase in Hknown.
  destruct (container.Event.State n) eqn:HS; [ | | | | contradiction ].
  - (* Created *)
    destruct (map_index (containerCreated w) (container.Event.ID n))
      as [p|] eqn:Hp.
    + destruct w as [h [cr|] st ca on cl]; [ | discriminate ].
      cbn [heap containerCreated containerStarted] in *.
      pose proof (Hvc _ _ Hp) as Hlt.
      destruct (lookup_lt_is_Some_2 h p Hlt) as [e He].
      pose proof (take_drop_middle h p e He) as Hsplit.
      assert (Hlen : length (take p h) = p) by (rewrite length_take; lia).
      assert (Hhit : map_index (Some cr) (container.Event.ID n)
                     = Some (length (take p h))) by (rewrite Hlen; exact Hp).
      assert (Hu' : cache_usable ext
                      (mkWorld (take p h ++ e :: drop (S p) h) (Some cr) st ca on cl))
        by exact Hu.
      destruct (created_second_run ext n (take p h) e (drop (S p) h)
                  cr st ca on cl HS Hhit Hu') as (extra & c & cl' & Hrun).
      rewrite Hsplit in Hrun. eexists _, _. split; [ exact Hrun | ].
      assert (Hle : length h
                    <= length (take p h ++ overwrite_configs n e
                                 :: drop (S p) h ++ extra)).
      { rewrite <- Hsplit at 1. rewrite !length_app. simpl.
        rewrite length_app. lia. }
      split; [ split | ]; cbn [heap containerCreated containerStarted].
      * apply ptrs_valid_delete. eapply ptrs_valid_mono; eauto.
      * eapply ptrs_valid_mono; eauto.
      * split; [ reflexivity | ].
        simpl. rewrite lookup_insert_eq. eauto.
    + destruct (created_first_run ext n w HS Hp Hu) as (extra & c & cl' & Hrun).
      eexists _, _. split; [ exact Hrun | ].
      assert (Hle : length (heap w) < length (heap w ++ created_of n :: extra))
        by (rewrite length_app; simpl; lia).
      split; [ split | ]; cbn [heap containerCreated containerStarted].
      * apply ptrs_valid_insert; [ | exact Hle ].
        apply ptrs_valid_default. eapply ptrs_valid_mono; [ exact Hvc | lia ].
      * eapply ptrs_valid_mono; [ exact Hvs | lia ].
      * split; [ reflexivity | ].
        simpl. rewrite lookup_insert_eq. eauto.
  - (* Started *)
    destruct (map_index (containerStarted w) (container.Event.ID n))
      as [p|] eqn:Hp.
    + destruct w as [h cr [st|] ca on cl]; [ | discriminate ].
      cbn [heap containerCreated containerStarted] in *.
      pose proof (Hvs _ _ Hp) as Hlt.
      destruct (lookup_lt_is_Some_2 h p Hlt) as [e He].
      pose proof (take_drop_middle h p e He) as Hsplit.
      assert (Hlen : length (take p h) = p) by (rewrite length_take; lia).
      assert (Hhit : map_index (Some st) (container.Event.ID n)
                     = Some (length (take p h))) by (rewrite Hlen; exact Hp).
      assert (Hu' : cache_usable ext
                      (mkWorld (take p h ++ e :: drop (S p) h) cr (Some st) ca on cl))
        by exact Hu.
      destruct (started_second_run ext n (take p h) e (drop (S p) h)
                  cr st ca on cl HS Hhit Hu') as (extra & c & cl' & Hrun).
      rewrite Hsplit in Hrun. eexists _, _. split; [ exact Hrun | ].
      assert (Hle : length h
                    <= length (take p h ++ started_merge n e
                                 :: drop (S p) h ++ extra)).
      { rewrite <- Hsplit at 1. rewrite !length_app. simpl.
        rewrite length_app. lia. }
      split; [ split | ]; cbn [heap containerCreated containerStarted].
      * eapply ptrs_valid_mono; eauto.
      * apply ptrs_valid_delete. eapply ptrs_valid_mono; eauto.
      * split; [ reflexivity | ].
        simpl. rewrite lookup_insert_eq. eauto.
    + destruct (started_first_run ext n w HS Hp Hu) as (extra & c & cl' & Hrun).
      eexists _, _. split; [ exact Hrun | ].
      assert (Hle : length (heap w) < length (heap w ++ running_of n :: extra))
        by (rewrite length_app; simpl; lia).
      split; [ split | ]; cbn [heap containerCreated containerStarted].
      * eapply ptrs_valid_mono; [ exact Hvc | lia ].
      * apply ptrs_valid_insert; [ | exact Hle ].
        apply ptrs_valid_default. eapply ptrs_valid_mono; [ exact Hvs | lia ].
      * split; [ reflexivity | ].
        simpl. rewrite lookup_insert_eq. eauto.
  - (* Stopped *)
    destruct (stopped_run ext n w HS Hu) as (extra & c & cl' & Hrun).
    eexists _, _. split; [ exact Hrun | ].
    assert (Hle : length (heap w) <= length (heap w ++ exited_of n :: extra))
      by (rewrite length_app; simpl; lia).
    split; [ split | ]; cbn [heap containerCreated containerStarted].
    + eapply ptrs_valid_mono; eauto.
    + eapply ptrs_valid_mono; eauto.
    + split; [ reflexivity | ].
      simpl. rewrite lookup_insert_eq. eauto.
  - (* Removed *)
    destruct (removed_run ext n w HS Hu) as (extra & c & cl' & Hrun & _).
    eexists _, _. split; [ exact Hrun | ].
    assert (Hle : length (heap w) <= length (heap w ++ destroyed_of n :: extra))
      by (rewrite length_app; simpl; lia).
    split; [ split | ]; cbn [heap containerCreated containerStarted].
    + eapply ptrs_valid_mono; eauto.
    + eapply ptrs_valid_mono; eauto.
    + split; [ reflexivity | ].
      simpl. rewrite lookup_insert_eq. eauto.
Qed.

Lemma cached_usable (w : World) k :
  containerCacheOnce w = true ->
  is_Some (map_index (containerCache w) k) ->
  cache_usable ext w.
Proof.
  intros Hon [p Hp]. unfold cache_usable. rewrite Hon.
  destruct (containerCache w); [ eauto | discriminate ].
Qed.

Lemma feed_evolves notifications : keeps evolves (feed ext notifications).
Proof.
  apply (feed_keeps evolves evolves_frame evolves_trans ext
           (saveContainerEvent_evolves ext)).
Qed.

(** A stream of notifications with known phases, on a state whose merge
    maps point into the heap and whose cache can be written. *)
Lemma feed_returns (ns : list container.Event.t) :
  forall w,
    Forall known_phase ns ->
    buffers_valid w ->
    cache_usable ext w ->
    exists evs w',
      feed ext ns w = Ret evs w'
      /\ length evs <= length ns
      /\ buffers_valid w'
      /\ cache_usable ext w'
      /\ (ns <> [] -> containerCacheOnce w' = true)
      /\ Forall (fun n => is_Some (map_index (containerCache w')
                                             (container.Event.ID n))) ns.
Proof.
  induction ns as [|n ns IH]; intros w Hknown Hv Hu.
  - exists [], w. split; [ reflexivity | ]. split; [ simpl; lia | ].
    split; [ exact Hv | ]. split; [ exact Hu | ].
    split; [ intros Hne; now destruct Hne | constructor ].
  - inversion Hknown as [|? ? Hn Hns]; subst.
    destruct (translateContainerEvents_returns n w Hn Hv Hu)
      as (r & w1 & Hrun1 & Hv1 & Hon1 & Hc1).
    pose proof (cached_usable w1 _ Hon1 Hc1) as Hu1.
    destruct (IH w1 Hns Hv1 Hu1) as (evs & w' & Hrun & Hlen & Hv' & Hu' & _ & Hall).
    destruct (feed_evolves ns w1 evs w' Hrun) as (Hon' & _ & Hmono).
    exists (match r with Some ev => ev :: evs | None => evs end), w'.
    split.
    { simpl. eapply run_bind; [ exact Hrun1 | ].
      eapply run_bind; [ exact Hrun | ]. reflexivity. }
    split; [ destruct r; simpl; lia | ].
    split; [ exact Hv' | ]. split; [ exact Hu' | ].
    split; [ intros _; now apply Hon' | ].
    constructor; [ now apply Hmono | exact Hall ].
Qed.

End Total.

Section Streams.

Variable ext : Externals.

(** X5: a stream of notifications with known phases, fed to a state whose
    merge maps point into the heap and whose cache can be written, is
    translated without a panic; it emits at most one event per
    notification and leaves a state of the same kind. *)
Theorem known_streams_translate_without_panic
        (ns : list container.Event.t) (w : World) :
  Forall known_phase ns ->
  buffers_valid w ->
  cache_usable ext w ->
  exists evs w',
    feed ext ns w = Ret evs w'
    /\ length evs <= length ns
    /\ buffers_valid w'
    /\ cache_usable ext w'.
Proof.
  intros Hknown Hv Hu.
  destruct (feed_returns ext ns w Hknown Hv Hu)
    as (evs & w' & Hrun & Hlen & Hv' & Hu' & _).
  exists evs, w'. auto.
Qed.

(** X6: after such a stream every container ID it mentioned is in the
    cache, so a lookup of it is answered without any call to the runtime
    and without a change of state (and, as every lookup, with a nil
    pointer). *)
Theorem translated_ids_are_cache_hits
        (ns : list container.Event.t) (w : World) :
  Forall known_phase ns ->
  buffers_valid w ->
  cache_usable ext w ->
  exists evs w',
    feed ext ns w = Ret evs w'
    /\ Forall (fun n => getContainerEvent ext (container.Event.ID n) w'
                        = Ret (None, None) w') ns.
Proof.
  intros Hknown Hv Hu.
  destruct (feed_returns ext ns w Hknown Hv Hu)
    as (evs & w' & Hrun & _ & _ & _ & Hon & Hall).
  exists evs, w'. split; [ exact Hrun | ].
  destruct ns as [|n0 ns0]; [ constructor | ].
  assert (Hon' : containerCacheOnce w' = true) by (apply Hon; discriminate).
  eapply Forall_impl; [ exact Hall | ]. intros n [p Hp]. simpl in Hp.
  pose proof (getContainerEvent_hit ext (container.Event.ID n) w' p) as Hhit.
  rewrite (bootstrapped_done ext w' Hon') in Hhit. now apply Hhit.
Qed.

End Streams.

(** ** Pairs of notifications, for either pairing phase *)

Lemma list_pair_ind {A} (P : list A -> Prop) :
  P [] -> (forall a, P [a]) -> (forall a b l, P l -> P (a :: b :: l)) ->
  forall l, P l.
Proof.
  intros H0 H1 H2 l.
  assert (Hboth : P l /\ forall a, P (a :: l)).
  { induction l as [|x l [IHl IHxl]]; [ split; auto | ].
    split; [ apply IHxl | intros a; apply H2; exact IHl ]. }
  apply Hboth.
Qed.

Section Pairs.

Variable ext : Externals.

(** The first notification of a pair: nothing is emitted, and one new
    object is in the merge map and in the cache under the ID. *)
Lemma paired_first ph (n : container.Event.t) (w : World) :
  pairing ph ->
  container.Event.State n = ph ->
  map_index (merge_map ph w) (container.Event.ID n) = None ->
  cache_usable ext w ->
  exists w1 extra,
    translateContainerEvents ext n w = Ret None w1
    /\ heap w1 = heap w ++ first_object n :: extra
    /\ map_index (merge_map ph w1) (container.Event.ID n) = Some (length (heap w))
    /\ map_index (containerCache w1) (container.Event.ID n) = Some (length (heap w))
    /\ containerCacheOnce w1 = true
    /\ (forall k, k <> container.Event.ID n ->
          map_index (merge_map ph w1) k = map_index (merge_map ph w) k)
    /\ (forall ph', ph' <> ph -> merge_map ph' w1 = merge_map ph' w).
Proof.
  intros [-> | ->] HS Hnone Hu; simpl in Hnone; unfold first_object; rewrite HS.
  - destruct (created_first_run ext n w HS Hnone Hu) as (extra & c & cl & Hrun).
    eexists _, extra. split; [ exact Hrun | ]. simpl.
    split; [ reflexivity | ]. split; [ apply lookup_insert_eq | ].
    split; [ apply lookup_insert_eq | ]. split; [ reflexivity | ]. split.
    + intros k Hne. rewrite lookup_insert_ne by congruence.
      destruct (containerCreated w); [ reflexivity | apply lookup_empty ].
    + intros ph' Hne. destruct ph'; try reflexivity. congruence.
  - destruct (started_first_run ext n w HS Hnone Hu) as (extra & c & cl & Hrun).
    eexists _, extra. split; [ exact Hrun | ]. simpl.
    split; [ reflexivity | ]. split; [ apply lookup_insert_eq | ].
    split; [ apply lookup_insert_eq | ]. split; [ reflexivity | ]. split.
    + intros k Hne. rewrite lookup_insert_ne by congruence.
      destruct (containerStarted w); [ reflexivity | apply lookup_empty ].
    + intros ph' Hne. destruct ph'; try reflexivity. congruence.
Qed.

(** The second notification of a pair: it is merged into the pending
    object, in place, and emitted; the ID is no longer pending, and no
    other pending entry is touched. *)
Lemma paired_second ph (n : container.Event.t) (w : World) p e :
  pairing ph ->
  container.Event.State n = ph ->
  map_index (merge_map ph w) (container.Event.ID n) = Some p ->
  heap w !! p = Some e ->
  cache_usable ext w ->
  exists w' extra,
    translateContainerEvents ext n w
    = Ret (Some (envelope ext (container.Event.ID n) p e)) w'
    /\ heap w' = <[p := merge_object n e]> (heap w) ++ extra
    /\ map_index (merge_map ph w') (container.Event.ID n) = None
    /\ map_index (containerCache w') (container.Event.ID n) = Some p
    /\ containerCacheOnce w' = true
    /\ (forall k, k <> container.Event.ID n ->
          map_index (merge_map ph w') k = map_index (merge_map ph w) k)
    /\ (forall ph', ph' <> ph -> merge_map ph' w' = merge_map ph' w).
Proof.
  intros Hph HS Hp He Hu.
  pose proof (lookup_lt_Some _ _ _ He) as Hlt.
  pose proof (take_drop_middle (heap w) p e He) as Hsplit.
  assert (Hlen : length (take p (heap w)) = p) by (rewrite length_take; lia).
  unfold merge_object. rewrite HS.
  destruct Hph as [-> | ->]; simpl in Hp.
  - destruct w as [h [cr|] st ca on cl]; [ | discriminate ].
    cbn [heap containerCreated containerStarted] in *.
    assert (Hhit : map_index (Some cr) (container.Event.ID n)
                   = Some (length (take p h))) by (rewrite Hlen; exact Hp).
    assert (Hu' : cache_usable ext
                    (mkWorld (take p h ++ e :: drop (S p) h) (Some cr) st ca on cl))
      by exact Hu.
    destruct (created_second_run ext n (take p h) e (drop (S p) h)
                cr st ca on cl HS Hhit Hu') as (extra & c & cl' & Hrun).
    rewrite Hsplit, Hlen in Hrun. eexists _, extra. split; [ exact Hrun | ].
    cbn [heap containerCreated containerStarted containerCache
         containerCacheOnce merge_map map_index].
    split; [ rewrite insert_take_drop by exact Hlt;
             rewrite <- app_assoc; reflexivity | ].
    split; [ apply lookup_delete_eq | ]. split; [ apply lookup_insert_eq | ].
    split; [ reflexivity | ]. split.
    + intros k Hne. now rewrite lookup_delete_ne by congruence.
    + intros ph' Hne. destruct ph'; try reflexivity. congruence.
  - destruct w as [h cr [st|] ca on cl]; [ | discriminate ].
    cbn [heap containerCreated containerStarted] in *.
    assert (Hhit : map_index (Some st) (container.Event.ID n)
                   = Some (length (take p h))) by (rewrite Hlen; exact Hp).
    assert (Hu' : cache_usable ext
                    (mkWorld (take p h ++ e :: drop (S p) h) cr (Some st) ca on cl))
      by exact Hu.
    destruct (started_second_run ext n (take p h) e (drop (S p) h)
                cr st ca on cl HS Hhit Hu') as (extra & c & cl' & Hrun).
    rewrite Hsplit, Hlen in Hrun. eexists _, extra. split; [ exact Hrun | ].
    cbn [heap containerCreated containerStarted containerCache
         containerCacheOnce merge_map map_index].
    split; [ rewrite insert_take_drop by exact Hlt;
             rewrite <- app_assoc; reflexivity | ].
    split; [ apply lookup_delete_eq | ]. split; [ apply lookup_insert_eq | ].
    split; [ reflexivity | ]. split.
    + intros k Hne. now rewrite lookup_delete_ne by congruence.
    + intros ph' Hne. destruct ph'; try reflexivity. congruence.
Qed.

(** A whole pair: the second notification emits, and the ID is no longer
    pending. *)
Lemma paired_pair ph (n1 n2 : container.Event.t) (w : World) :
  pairing ph ->
  container.Event.State n1 = ph ->
  container.Event.State n2 = ph ->
  container.Event.ID n2 = container.Event.ID n1 ->
  map_index (merge_map ph w) (container.Event.ID n1) = None ->
  cache_usable ext w ->
  exists w1 ev w2,
    translateContainerEvents ext n1 w = Ret None w1
    /\ translateContainerEvents ext n2 w1 = Ret (Some ev) w2
    /\ map_index (merge_map ph w2) (container.Event.ID n1) = None
    /\ cache_usable ext w2.
Proof.
  intros [-> | ->] HS1 HS2 Hid Hnone Hu; simpl in Hnone.
  - destruct (created_first_run ext n1 w HS1 Hnone Hu) as (x1 & c1 & cl1 & Hrun1).
    assert (Hhit : map_index
                     (Some (<[container.Event.ID n1 := length (heap w)]>
                              (default ∅ (containerCreated w))))
                     (container.Event.ID n2) = Some (length (heap w)))
      by (rewrite Hid; apply lookup_insert_eq).
    destruct (created_second_run ext n2 (heap w) (created_of n1) x1
                (<[container.Event.ID n1 := length (heap w)]>
                   (default ∅ (containerCreated w)))
                (containerStarted w)
                (Some (<[container.Event.ID n1 := length (heap w)]> c1)) true cl1
                HS2 Hhit)
      as (x2 & c2 & cl2 & Hrun2).
    { unfold cache_usable. simpl. eauto. }
    eexists _, _, _. split; [ exact Hrun1 | ]. split; [ exact Hrun2 | ].
    simpl. rewrite Hid. split; [ apply lookup_delete_eq | ].
    unfold cache_usable. simpl. eauto.
  - destruct (started_first_run ext n1 w HS1 Hnone Hu) as (x1 & c1 & cl1 & Hrun1).
    assert (Hhit : map_index
                     (Some (<[container.Event.ID n1 := length (heap w)]>
                              (default ∅ (containerStarted w))))
                     (container.Event.ID n2) = Some (length (heap w)))
      by (rewrite Hid; apply lookup_insert_eq).
    destruct (started_second_run ext n2 (heap w) (running_of n1) x1
                (containerCreated w)
                (<[container.Event.ID n1 := length (heap w)]>
                   (default ∅ (containerStarted w)))
                (Some (<[container.Event.ID n1 := length (heap w)]> c1)) true cl1
                HS2 Hhit)
      as (x2 & c2 & cl2 & Hrun2).
    { unfold cache_usable. simpl. eauto. }
    eexists _, _, _. split; [ exact Hrun1 | ]. split; [ exact Hrun2 | ].
    simpl. rewrite Hid. split; [ apply lookup_delete_eq | ].
    unfold cache_usable. simpl. eauto.
Qed.

(** X7: where the cache map can be written, of a stream of notifications
    of one pairing phase (Created or Started) for one container ID that
    has no pending entry, every second one is emitted: [k] notifications yield [k / 2] events, and the ID is
    left pending exactly when [k] is odd. *)
Theorem pairing_stream_emits_every_second
        ph (contId : string) (ns : list container.Event.t) (w : World) :
  pairing ph ->
  Forall (fun n => container.Event.State n = ph
                   /\ container.Event.ID n = contId) ns ->
  map_index (merge_map ph w) contId = None ->
  cache_usable ext w ->
  exists evs w',
    feed ext ns w = Ret evs w'
    /\ length evs = Nat.div2 (length ns)
    /\ (if Nat.even (length ns)
        then map_index (merge_map ph w') contId = None
        else is_Some (map_index (merge_map ph w') contId)).
Proof.
  intros Hph. revert w.
  induction ns as [|a|a b l IH] using list_pair_ind; intros w Hall Hnone Hu.
  - exists [], w. repeat split. exact Hnone.
  - inversion Hall as [|? ? [HSa Hida] _]; subst.
    destruct (paired_first (container.Event.State a) a w Hph eq_refl Hnone Hu)
      as (w1 & extra & Hrun & _ & Hpend & _).
    exists [], w1. split.
    { simpl. eapply run_bind; [ exact Hrun | ]. reflexivity. }
    split; [ reflexivity | ]. simpl. rewrite Hpend. eauto.
  - inversion Hall as [|? ? [HSa Hida] Hall']; subst.
    inversion Hall' as [|? ? [HSb Hidb] Hall'']; subst.
    destruct (paired_pair (container.Event.State a) a b w Hph eq_refl HSb Hidb
                Hnone Hu) as (w1 & ev & w2 & Hrun1 & Hrun2 & Hnone2 & Hu2).
    assert (Hall3 : Forall (fun n => container.Event.State n = container.Event.State a
                                     /\ container.Event.ID n = container.Event.ID a) l).
    { eapply Forall_impl; [ exact Hall'' | ]. intros n [H1 H2]. split; congruence. }
    destruct (IH w2 Hall3 Hnone2 Hu2) as (evs & w' & Hrun & Hlen & Hpar).
    exists (ev :: evs), w'. split.
    { simpl. eapply run_bind; [ exact Hrun1 | ].
      eapply run_bind; [ | reflexivity ].
      eapply run_bind; [ exact Hrun2 | ].
      eapply run_bind; [ exact Hrun | ]. reflexivity. }
    split; [ simpl; now rewrite Hlen | exact Hpar ].
Qed.

End Pairs.

Lemma State_eq_dec (a b : container.State) : {a = b} + {a <> b}.
Proof. decide equality. apply Z.eq_dec. Qed.

(** The two frame statements of a step on the pair [(ph, contId)], as
    one: every other pending entry is as before. *)
Lemma other_pending_kept ph contId (w w1 : World) ph2 k2 :
  (forall k, k <> contId ->
     map_index (merge_map ph w1) k = map_index (merge_map ph w) k) ->
  (forall ph', ph' <> ph -> merge_map ph' w1 = merge_map ph' w) ->
  ph2 <> ph \/ k2 <> contId ->
  map_index (merge_map ph2 w1) k2 = map_index (merge_map ph2 w) k2.
Proof.
  intros Hk Hp Hne. destruct (State_eq_dec ph2 ph) as [-> | Hph].
  - apply Hk. destruct Hne as [Hne | Hne]; [ contradiction | exact Hne ].
  - now rewrite (Hp ph2 Hph).
Qed.

Section Interleaving.

Variable ext : Externals.

(** X8: where the cache map can be written and neither pair is pending
    beforehand, pairs are matched per phase and per container ID.  When the first
    notification of another pair (another ID, or the other pairing phase)
    arrives between the two notifications of a pair, the second one still
    emits the merge of its own pair, and the other pair stays pending with
    its own object. *)
Theorem interleaved_pairs_do_not_interfere
        pa pb (a1 b1 a2 : container.Event.t) (w : World) :
  pairing pa -> pairing pb ->
  container.Event.State a1 = pa ->
  container.Event.State a2 = pa ->
  container.Event.State b1 = pb ->
  container.Event.ID a2 = container.Event.ID a1 ->
  pb <> pa \/ container.Event.ID b1 <> container.Event.ID a1 ->
  map_index (merge_map pa w) (container.Event.ID a1) = None ->
  map_index (merge_map pb w) (container.Event.ID b1) = None ->
  cache_usable ext w ->
  exists ev w' q,
    feed ext [a1; b1; a2] w = Ret [ev] w'
    /\ emitted w' ev = Some (merge_object a2 (first_object a1))
    /\ map_index (merge_map pa w') (container.Event.ID a1) = None
    /\ map_index (merge_map pb w') (container.Event.ID b1) = Some q
    /\ heap w' !! q = Some (first_object b1).
Proof.
  intros Hpa Hpb HSa1 HSa2 HSb1 Hid Hne HnoneA HnoneB Hu.
  assert (Hne' : pa <> pb \/ container.Event.ID a1 <> container.Event.ID b1)
    by (destruct Hne; [ left | right ]; congruence).
  (* a1 *)
  destruct (paired_first ext pa a1 w Hpa HSa1 HnoneA Hu)
    as (w1 & x1 & Hrun1 & Hheap1 & HpendA1 & Hc1 & Hon1 & Hk1 & Hp1).
  assert (HnoneB1 : map_index (merge_map pb w1) (container.Event.ID b1) = None).
  { rewrite (other_pending_kept pa (container.Event.ID a1) w w1 pb _ Hk1 Hp1 Hne).
    exact HnoneB. }
  assert (Hu1 : cache_usable ext w1).
  { apply (cached_usable ext w1 (container.Event.ID a1) Hon1).
    rewrite Hc1. eauto. }
  (* b1 *)
  destruct (paired_first ext pb b1 w1 Hpb HSb1 HnoneB1 Hu1)
    as (w2 & x2 & Hrun2 & Hheap2 & HpendB2 & Hc2 & Hon2 & Hk2 & Hp2).
  assert (HpendA2 : map_index (merge_map pa w2) (container.Event.ID a2)
                    = Some (length (heap w))).
  { rewrite Hid.
    rewrite (other_pending_kept pb (container.Event.ID b1) w1 w2 pa _ Hk2 Hp2 Hne').
    exact HpendA1. }
  assert (HobjA2 : heap w2 !! length (heap w) = Some (first_object a1)).
  { rewrite Hheap2, Hheap1. apply lookup_app_l_Some.
    now apply list_lookup_middle. }
  assert (Hu2 : cache_usable ext w2).
  { apply (cached_usable ext w2 (container.Event.ID b1) Hon2).
    rewrite Hc2. eauto. }
  (* a2 *)
  destruct (paired_second ext pa a2 w2 (length (heap w)) (first_object a1)
              Hpa HSa2 HpendA2 HobjA2 Hu2)
    as (w3 & x3 & Hrun3 & Hheap3 & HnoneA3 & _ & _ & Hk3 & Hp3).
  pose proof (lookup_lt_Some _ _ _ HobjA2) as HltA.
  assert (HltB : length (heap w1) < length (heap w2))
    by (rewrite Hheap2, length_app; simpl; lia).
  assert (HneAB : length (heap w) <> length (heap w1))
    by (rewrite Hheap1, length_app; simpl; lia).
  eexists _, w3, (length (heap w1)).
  split.
  { simpl. eapply run_bind; [ exact Hrun1 | ].
    eapply run_bind; [ | reflexivity ].
    eapply run_bind; [ exact Hrun2 | ].
    eapply run_bind; [ | reflexivity ].
    eapply run_bind; [ exact Hrun3 | ]. reflexivity. }
  split.
  { unfold emitted, envelope. simpl. rewrite Hheap3.
    apply lookup_app_l_Some. now apply list_lookup_insert_eq. }
  split; [ rewrite <- Hid; exact HnoneA3 | ].
  split.
  { rewrite Hid in Hk3.
    rewrite (other_pending_kept pa (container.Event.ID a1) w2 w3 pb _ Hk3 Hp3 Hne).
    exact HpendB2. }
  rewrite Hheap3. apply lookup_app_l_Some.
  rewrite list_lookup_insert_ne by exact HneAB.
  rewrite Hheap2. now apply list_lookup_middle.
Qed.

End Interleaving.

Section MoreOfTheTranslator.

Variable ext : Externals.

(** X9: where the cache map can be written and the ID is not pending
    beforehand, the two notifications of a pair work on one object.  The first,
    though it emits nothing, puts a pointer to a new object into the merge
    map and into the cache; the second updates that object in place, so
    the cache entry, still the same pointer, shows the merged event, and
    the emitted envelope carries that pointer too. *)
Theorem paired_notifications_share_one_object
        ph (n1 n2 : container.Event.t) (w : World) :
  pairing ph ->
  container.Event.State n1 = ph ->
  container.Event.State n2 = ph ->
  container.Event.ID n2 = container.Event.ID n1 ->
  map_index (merge_map ph w) (container.Event.ID n1) = None ->
  cache_usable ext w ->
  exists p w1 ev w2,
    translateContainerEvents ext n1 w = Ret None w1
    /\ map_index (merge_map ph w1) (container.Event.ID n1) = Some p
    /\ map_index (containerCache w1) (container.Event.ID n1) = Some p
    /\ heap w1 !! p = Some (first_object n1)
    /\ translateContainerEvents ext n2 w1 = Ret (Some ev) w2
    /\ Event.Event ev = Some (Event_Container p)
    /\ map_index (containerCache w2) (container.Event.ID n1) = Some p
    /\ heap w2 !! p = Some (merge_object n2 (first_object n1)).
Proof.
  intros Hph HS1 HS2 Hid Hnone Hu.
  destruct (paired_first ext ph n1 w Hph HS1 Hnone Hu)
    as (w1 & x1 & Hrun1 & Hheap1 & Hpend1 & Hc1 & Hon1 & _).
  assert (Hobj1 : heap w1 !! length (heap w) = Some (first_object n1))
    by (rewrite Hheap1; now apply list_lookup_middle).
  assert (Hu1 : cache_usable ext w1).
  { apply (cached_usable ext w1 (container.Event.ID n1) Hon1).
    rewrite Hc1. eauto. }
  assert (Hpend1' : map_index (merge_map ph w1) (container.Event.ID n2)
                    = Some (length (heap w))) by (rewrite Hid; exact Hpend1).
  destruct (paired_second ext ph n2 w1 (length (heap w)) (first_object n1)
              Hph HS2 Hpend1' Hobj1 Hu1)
    as (w2 & x2 & Hrun2 & Hheap2 & _ & Hc2 & _).
  eexists (length (heap w)), w1, _, w2.
  split; [ exact Hrun1 | ]. split; [ exact Hpend1 | ]. split; [ exact Hc1 | ].
  split; [ exact Hobj1 | ]. split; [ exact Hrun2 | ]. split; [ reflexivity | ].
  split; [ rewrite <- Hid; exact Hc2 | ].
  rewrite Hheap2. apply lookup_app_l_Some.
  apply list_lookup_insert_eq. now apply lookup_lt_Some in Hobj1.
Qed.

(** X10: the event emitted for a pair of [Created] notifications takes its
    name, image ID and image name from the first notification only, and
    its configuration blob B from the second only; host PID and exit code
    are zero.  The envelope carries the same name and image fields. *)
Theorem created_pair_takes_names_from_first
        (n1 n2 : container.Event.t) (w : World) :
  container.Event.State n1 = ContainerCreated ->
  container.Event.State n2 = ContainerCreated ->
  container.Event.ID n2 = container.Event.ID n1 ->
  map_index (containerCreated w) (container.Event.ID n1) = None ->
  cache_usable ext w ->
  exists ev w2 e,
    feed ext [n1; n2] w = Ret [ev] w2
    /\ emitted w2 ev = Some e
    /\ ContainerEvent.Name e = container.Event.Name n1
    /\ ContainerEvent.ImageId e = container.Event.ImageID n1
    /\ ContainerEvent.ImageName e = container.Event.Image n1
    /\ ContainerEvent.OciConfigJson e = container.Event.OciConfig n2
    /\ ContainerEvent.HostPid e = 0%Z
    /\ ContainerEvent.ExitCode e = 0%Z
    /\ Event.ContainerName ev = container.Event.Name n1
    /\ Event.ImageId ev = container.Event.ImageID n1
    /\ Event.ImageName ev = container.Event.Image n1.
Proof.
  intros HS1 HS2 Hid Hnone Hu.
  destruct (created_pair_run ext n1 n2 w HS1 HS2 Hid Hnone Hu)
    as (w1 & w2 & extra & Hrun1 & Hrun2 & Hheap & _).
  exists (envelope ext (container.Event.ID n1) (length (heap w)) (created_of n1)),
         w2, (overwrite_configs n2 (created_of n1)).
  split; [ now apply (feed_pair ext n1 n2 w w1) | ].
  split; [ now apply (emitted_envelope ext w2 _ (heap w) _ extra) | ].
  repeat split; try reflexivity.
  simpl. now destruct (container.Event.OciConfig n2).
Qed.

(** X11: the event emitted for a [Stopped] notification is built from that
    notification alone: name, image ID, image name, both configuration
    blobs and the exit code as they are, the host PID through [int32];
    the envelope carries the name and image fields, and the cache entry of
    the ID is the emitted object. *)
Theorem stopped_event_is_the_notification
        (n : container.Event.t) (w : World) :
  container.Event.State n = ContainerStopped ->
  cache_usable ext w ->
  exists ev w' p,
    feed ext [n] w = Ret [ev] w'
    /\ Event.Event ev = Some (Event_Container p)
    /\ emitted w' ev
       = Some (ContainerEvent.mk CONTAINER_EVENT_TYPE_EXITED
                 (container.Event.Name n) (container.Event.ImageID n)
                 (container.Event.Image n) (int32 (container.Event.Pid n))
                 (container.Event.DockerConfig n) (container.Event.OciConfig n)
                 (container.Event.ExitCode n))
    /\ Event.ContainerName ev = container.Event.Name n
    /\ Event.ImageId ev = container.Event.ImageID n
    /\ Event.ImageName ev = container.Event.Image n
    /\ map_index (containerCache w') (container.Event.ID n) = Some p.
Proof.
  intros HS Hu.
  destruct (stopped_run ext n w HS Hu) as (extra & c & cl & Hrun).
  eexists _, _, (length (heap w)).
  split; [ apply feed_one; exact Hrun | ].
  split; [ reflexivity | ].
  split.
  { rewrite (emitted_envelope ext _ _ (heap w) (exited_of n) extra) by reflexivity.
    unfold exited_of. do 2 f_equal.
    destruct (container.Event.Pid n =? 0)%Z eqn:Hz; [ | reflexivity ].
    apply Z.eqb_eq in Hz. now rewrite Hz. }
  repeat split; try reflexivity. apply lookup_insert_eq.
Qed.

(** X12: a lookup that misses a non-nil cache calls the single lookup
    once, stores an entry with the [sha256:] prefix stripped from the
    image ID, and makes the ID a hit: the next lookup calls nothing and
    changes nothing. *)
Theorem lookup_miss_fetches_once_then_hits
        (contId : string) (dc : DockerConfig.t) (w : World) :
  map_index (containerCache (bootstrapped ext w)) contId = None ->
  GetDockerConfig ext (calls (bootstrapped ext w)) contId = Ok dc ->
  is_Some (containerCache (bootstrapped ext w)) ->
  exists w1 p,
    getContainerEvent ext contId w = Ret (None, None) w1
    /\ calls w1 = calls (bootstrapped ext w) ++ [CallGetDockerConfig contId]
    /\ map_index (containerCache w1) contId = Some p
    /\ heap w1 !! p
       = Some (ContainerEvent.mk CONTAINER_EVENT_TYPE_UNKNOWN
                 (DockerConfig.Name dc)
                 (trimImageIdPrefix (DockerConfig.Image dc))
                 (DockerConfig.Config_Image dc) 0 "" "" 0)
    /\ getContainerEvent ext contId w1 = Ret (None, None) w1.
Proof.
  intros Hmiss Hok [m Hm].
  pose proof (getContainerEvent_miss_ok ext contId w dc m Hmiss Hok Hm) as Hrun.
  eexists _, (length (heap (bootstrapped ext w))).
  split; [ exact Hrun | ]. split; [ reflexivity | ].
  split; [ apply lookup_insert_eq | ].
  split; [ simpl; now apply list_lookup_middle | ].
  match goal with
  | |- getContainerEvent _ _ ?w1 = _ =>
      pose proof (getContainerEvent_hit ext contId w1
                    (length (heap (bootstrapped ext w)))) as Hhit;
      rewrite (bootstrapped_done ext w1 eq_refl) in Hhit
  end.
  apply Hhit. apply lookup_insert_eq.
Qed.

(** X13: a container that the bootstrap enumeration listed is a cache hit
    from the first access on: the lookup that triggers the bootstrap makes
    the enumeration call and no single lookup. *)
Theorem enumerated_container_is_never_fetched
        (l : list DockerConfig.t) (dc : DockerConfig.t) (w : World) :
  containerCacheOnce w = false ->
  GetDockerConfigList ext (calls w) = Ok l ->
  dc ∈ l ->
  exists w1,
    getContainerEvent ext (DockerConfig.ID dc) w = Ret (None, None) w1
    /\ calls w1 = calls w ++ [CallGetDockerConfigList]
    /\ is_Some (map_index (containerCache w1) (DockerConfig.ID dc)).
Proof.
  intros Hoff Hl Hin.
  destruct (range_map_lookup_listed l (length (heap w)) ∅ dc Hin) as [p Hp].
  assert (Hhit : map_index (containerCache (bootstrapped ext w))
                           (DockerConfig.ID dc) = Some p)
    by (rewrite (bootstrapped_ok ext w l Hoff Hl); exact Hp).
  exists (bootstrapped ext w).
  split; [ now apply (getContainerEvent_hit ext _ w p) | ].
  split; [ now rewrite (bootstrapped_ok ext w l Hoff Hl) | ].
  rewrite Hhit. eauto.
Qed.

(** X14: when the enumeration of the first cache access fails, the cache
    map stays nil for good: a lookup then always goes to the single
    lookup, returns its error if it fails, and panics at the cache write
    if it succeeds. *)
Theorem failed_bootstrap_lookup
        (contId : string) (e : error) (w : World) :
  containerCacheOnce w = false ->
  GetDockerConfigList ext (calls w) = Err e ->
  getContainerEvent ext contId w
  = match GetDockerConfig ext (calls w ++ [CallGetDockerConfigList]) contId with
    | Err err =>
        Ret (None, Some err)
            (mkWorld (heap w) (containerCreated w) (containerStarted w) None true
                     ((calls w ++ [CallGetDockerConfigList])
                        ++ [CallGetDockerConfig contId]))
    | Ok _ => Panic "assignment to entry in nil map"
    end.
Proof.
  intros Hoff He. pose proof (bootstrapped_err ext w e Hoff He) as Hb.
  destruct (GetDockerConfig ext (calls w ++ [CallGetDockerConfigList]) contId)
    as [dc | err] eqn:Hget.
  - unfold getContainerEvent.
    eapply run_bind; [ apply containerCacheOnce_Do_bootstrapped | ].
    rewrite Hb. eapply run_bind; [ reflexivity | ]. simpl.
    eapply run_bind; [ reflexivity | ]. simpl. rewrite Hget.
    eapply run_bind; [ reflexivity | ].
    apply run_bind_panic. apply saveContainerEvent_nil.
    now rewrite bootstrapped_done.
  - rewrite (getContainerEvent_miss_err ext contId w err); rewrite Hb.
    + reflexivity.
    + reflexivity.
    + exact Hget.
Qed.

End MoreOfTheTranslator.

(** ** The translator on a cache that cannot be written *)

Section NilCache.

Variable ext : Externals.

Lemma bootstrapped_nil_frame (w w' : World) :
  same_cache_state w w' ->
  containerCache (bootstrapped ext w) = None ->
  containerCache (bootstrapped ext w') = None.
Proof.
  intros (Hc & Ho & Hl) Hnil. destruct (containerCacheOnce w) eqn:Hon.
  - rewrite (bootstrapped_done ext w Hon) in Hnil.
    rewrite (bootstrapped_done ext w') by congruence. congruence.
  - destruct (GetDockerConfigList ext (calls w)) as [l | e] eqn:Hlist.
    + rewrite (bootstrapped_ok ext w l Hon Hlist) in Hnil. discriminate.
    + rewrite (bootstrapped_err ext w' e); [ reflexivity | congruence | congruence ].
Qed.

Ltac panic_at_save Hnil :=
  apply run_bind_panic; apply saveContainerEvent_nil;
  eapply bootstrapped_nil_frame; [ | exact Hnil ]; repeat split.

Lemma stopped_panics (n : container.Event.t) (w : World) :
  container.Event.State n = ContainerStopped ->
  containerCache (bootstrapped ext w) = None ->
  translateContainerEvents ext n w = Panic "assignment to entry in nil map".
Proof.
  intros HS Hnil. destruct w as [h cr st ca on cl].
  unfold translateContainerEvents. rewrite HS. unfold newContainerExited.
  eapply run_bind; [ repeat run_step; reflexivity | ].
  cbv beta. repeat run_step. panic_at_save Hnil.
Qed.

Lemma removed_panics (n : container.Event.t) (w : World) :
  container.Event.State n = ContainerRemoved ->
  containerCache (bootstrapped ext w) = None ->
  translateContainerEvents ext n w = Panic "assignment to entry in nil map".
Proof.
  intros HS Hnil. destruct w as [h cr st ca on cl].
  unfold translateContainerEvents. rewrite HS. unfold newContainerDestroyed.
  eapply run_bind; [ repeat run_step; reflexivity | ].
  cbv beta. repeat run_step. panic_at_save Hnil.
Qed.

Lemma created_first_panics (n : container.Event.t) (w : World) :
  container.Event.State n = ContainerCreated ->
  map_index (containerCreated w) (container.Event.ID n) = None ->
  containerCache (bootstrapped ext w) = None ->
  translateContainerEvents ext n w = Panic "assignment to entry in nil map".
Proof.
  intros HS Hnone Hnil. destruct w as [h cr st ca on cl].
  unfold translateContainerEvents. rewrite HS. unfold newContainerCreated.
  assert (Hidx : map_index (Some (default ∅ cr)) (container.Event.ID n) = None).
  { destruct cr; [ exact Hnone | apply lookup_empty ]. }
  apply run_bind_panic.
  eapply run_bind with (a := tt)
                       (w1 := mkWorld h (Some (default ∅ cr)) st ca on cl).
  { eapply run_bind; [ reflexivity | ]. now destruct cr. }
  cbv beta. run_step. rewrite Hidx. repeat run_step.
  rewrite Hidx. repeat run_step. panic_at_save Hnil.
Qed.

Lemma started_first_panics (n : container.Event.t) (w : World) :
  container.Event.State n = ContainerStarted ->
  map_index (containerStarted w) (container.Event.ID n) = None ->
  containerCache (bootstrapped ext w) = None ->
  translateContainerEvents ext n w = Panic "assignment to entry in nil map".
Proof.
  intros HS Hnone Hnil. destruct w as [h cr st ca on cl].
  unfold translateContainerEvents. rewrite HS. unfold newContainerRunning.
  assert (Hidx : map_index (Some (default ∅ st)) (container.Event.ID n) = None).
  { destruct st; [ exact Hnone | apply lookup_empty ]. }
  apply run_bind_panic.
  eapply run_bind with (a := tt)
                       (w1 := mkWorld h cr (Some (default ∅ st)) ca on cl).
  { eapply run_bind; [ reflexivity | ]. now destruct st. }
  cbv beta. run_step. rewrite Hidx. repeat run_step.
  rewrite Hidx. repeat run_step. panic_at_save Hnil.
Qed.

Lemma created_second_panics (n : container.Event.t) h e t cr st ca on cl :
  container.Event.State n = ContainerCreated ->
  map_index (Some cr) (container.Event.ID n) = Some (length h) ->
  containerCache (bootstrapped ext (mkWorld (h ++ e :: t) (Some cr) st ca on cl))
  = None ->
  translateContainerEvents ext n (mkWorld (h ++ e :: t) (Some cr) st ca on cl)
  = Panic "assignment to entry in nil map".
Proof.
  intros HS Hsome Hnil. unfold translateContainerEvents. rewrite HS.
  eapply run_bind.
  { run_step. run_step. rewrite Hsome. repeat run_step.
    rewrite Hsome. repeat run_step. reflexivity. }
  cbv beta. repeat run_step. panic_at_save Hnil.
Qed.

Lemma started_second_panics (n : container.Event.t) h e t cr st ca on cl :
  container.Event.State n = ContainerStarted ->
  map_index (Some st) (container.Event.ID n) = Some (length h) ->
  containerCache (bootstrapped ext (mkWorld (h ++ e :: t) cr (Some st) ca on cl))
  = None ->
  translateContainerEvents ext n (mkWorld (h ++ e :: t) cr (Some st) ca on cl)
  = Panic "assignment to entry in nil map".
Proof.
  intros HS Hsome Hnil. unfold translateContainerEvents. rewrite HS.
  eapply run_bind.
  { run_step. run_step. rewrite Hsome. repeat run_step.
    rewrite Hsome. repeat run_step. reflexivity. }
  cbv beta. repeat run_step. panic_at_save Hnil.
Qed.

(** X15: when the cache map is nil after the bootstrap (the enumeration
    failed), the translator panics at the cache write on every
    notification with a known phase, whether it would have been
    suppressed or emitted; nothing is ever translated. *)
Theorem translator_panics_on_nil_cache (n : container.Event.t) (w : World) :
  known_phase n ->
  buffers_valid w ->
  containerCache (bootstrapped ext w) = None ->
  translateContainerEvents ext n w = Panic "assignment to entry in nil map".
Proof.
  intros Hknown [Hvc Hvs] Hnil. unfold known_phase in Hknown.
  destruct (container.Event.State n) eqn:HS; [ | | | | contradiction ].
  - destruct (map_index (containerCreated w) (container.Event.ID n))
      as [p|] eqn:Hp; [ | now apply created_first_panics ].
    destruct w as [h [cr|] st ca on cl]; [ | discriminate ].
    cbn [heap containerCreated containerStarted] in *.
    pose proof (Hvc _ _ Hp) as Hlt.
    destruct (lookup_lt_is_Some_2 h p Hlt) as [e He].
    pose proof (take_drop_middle h p e He) as Hsplit.
    assert (Hlen : length (take p h) = p) by (rewrite length_take; lia).
    rewrite <- Hsplit. apply created_second_panics; [ exact HS | | ].
    + rewrite Hlen. exact Hp.
    + rewrite Hsplit. exact Hnil.
  - destruct (map_index (containerStarted w) (container.Event.ID n))
      as [p|] eqn:Hp; [ | now apply started_first_panics ].
    destruct w as [h cr [st|] ca on cl]; [ | discriminate ].
    cbn [heap containerCreated containerStarted] in *.
    pose proof (Hvs _ _ Hp) as Hlt.
    destruct (lookup_lt_is_Some_2 h p Hlt) as [e He].
    pose proof (take_drop_middle h p e He) as Hsplit.
    assert (Hlen : length (take p h) = p) by (rewrite length_take; lia).
    rewrite <- Hsplit. apply started_second_panics; [ exact HS | | ].
    + rewrite Hlen. exact Hp.
    + rewrite Hsplit. exact Hnil.
  - now apply stopped_panics.
  - now apply removed_panics.
Qed.

End NilCache.

(** ** The image ID prefix *)

Lemma substring_all (s : string) : String.substring 0 (len s) s = s.
Proof. induction s as [|c s IH]; simpl; [ reflexivity | now rewrite IH ]. Qed.

Lemma prefix_split (p s : string) :
  String.prefix p s = true -> exists t, s = String.append p t.
Proof.
  revert s. induction p as [|a p IH]; intros s Hp.
  - exists s. reflexivity.
  - destruct s as [|b s]; [ discriminate | ]. simpl in Hp.
    destruct (Ascii.ascii_dec a b) as [-> | ]; [ | discriminate ].
    destruct (IH s Hp) as [t ->]. exists t. reflexivity.
Qed.

(** X16: [trimImageIdPrefix] removes one leading ["sha256:"] and nothing
    else: a string that starts with it loses exactly these seven
    characters (a second such prefix stays), any other string is returned
    as it is. *)
Theorem trimImageIdPrefix_strips_one_prefix (s : string) :
  (exists t, s = String.append "sha256:" t /\ trimImageIdPrefix s = t)
  \/ (String.prefix "sha256:" s = false /\ trimImageIdPrefix s = s).
Proof.
  unfold trimImageIdPrefix.
  destruct (String.prefix "sha256:" s) eqn:Hp; [ left | right; auto ].
  destruct (prefix_split _ _ Hp) as [t ->]. exists t.
  split; [ reflexivity | ]. simpl. rewrite Nat.sub_0_r. apply substring_all.
Qed.

(** ** The clone flags as a bit set *)

Section CloneFlags.

Import sensor.

Lemma clone_flags_pairwise (a b : Z) :
  a ∈ clone_flags -> b ∈ clone_flags ->
  Z.land a b = if (a =? b)%Z then a else 0%Z.
Proof.
  assert (Hall : forallb (fun a => forallb (fun b =>
                   (Z.land a b =? (if (a =? b)%Z then a else 0))%Z)
                   clone_flags) clone_flags = true) by (vm_compute; reflexivity).
  intros Ha Hb. apply list_elem_of_In in Ha, Hb.
  rewrite forallb_forall in Hall. specialize (Hall a Ha).
  rewrite forallb_forall in Hall. specialize (Hall b Hb).
  now apply Z.eqb_eq in Hall.
Qed.

Lemma clone_flags_above_signal (a : Z) :
  a ∈ clone_flags -> Z.land a CSIGNAL = 0%Z /\ a <> 0%Z.
Proof.
  assert (Hall : forallb (fun a => (Z.land a CSIGNAL =? 0)%Z && negb (a =? 0)%Z)
                         clone_flags = true) by (vm_compute; reflexivity).
  intros Ha. apply list_elem_of_In in Ha.
  rewrite forallb_forall in Hall. specialize (Hall a Ha).
  apply andb_true_iff in Hall as [H1 H2].
  apply Z.eqb_eq in H1. apply negb_true_iff, Z.eqb_neq in H2. auto.
Qed.

Lemma land_signal (signal : Z) :
  (0 <= signal <= 255)%Z -> Z.land signal CSIGNAL = signal.
Proof.
  intros Hs. change CSIGNAL with (Z.ones 8).
  rewrite Z.land_ones by lia. apply Z.mod_small. lia.
Qed.

Lemma land_chosen (chosen : list Z) (f : Z) :
  Forall (fun a => a ∈ clone_flags) chosen ->
  f ∈ clone_flags ->
  Z.land (fold_right Z.lor 0%Z chosen) f
  = if existsb (fun a => (a =? f)%Z) chosen then f else 0%Z.
Proof.
  intros Hall Hf. induction Hall as [|a chosen Ha _ IH]; [ reflexivity | ].
  simpl. rewrite Z.land_lor_distr_l, IH, (clone_flags_pairwise a f Ha Hf).
  destruct (a =? f)%Z eqn:Haf; simpl.
  - apply Z.eqb_eq in Haf. subst a.
    destruct (existsb _ chosen); [ apply Z.lor_diag | apply Z.lor_0_r ].
  - reflexivity.
Qed.

Lemma land_chosen_signal (chosen : list Z) :
  Forall (fun a => a ∈ clone_flags) chosen ->
  Z.land (fold_right Z.lor 0%Z chosen) CSIGNAL = 0%Z.
Proof.
  intros Hall. induction Hall as [|a chosen Ha _ IH]; [ reflexivity | ].
  simpl. rewrite Z.land_lor_distr_l, IH.
  now rewrite (proj1 (clone_flags_above_signal a Ha)).
Qed.

(** A word made of any choice of flags and an exit signal of at most 255
    is decoded by the two bitwise tests. *)
Lemma flags_word_decode (chosen : list Z) (signal f : Z) :
  Forall (fun a => a ∈ clone_flags) chosen ->
  (0 <= signal <= 255)%Z ->
  f ∈ clone_flags ->
  (has_flag (flags_word chosen signal) f = true <-> f ∈ chosen)
  /\ Z.land (flags_word chosen signal) CSIGNAL = signal.
Proof.
  intros Hall Hs Hf. unfold has_flag, flags_word.
  destruct (clone_flags_above_signal f Hf) as [Hfs Hf0].
  split.
  - rewrite Z.land_lor_distr_l, (land_chosen chosen f Hall Hf).
    assert (Hsf : Z.land signal f = 0%Z).
    { rewrite <- (land_signal signal Hs), <- Z.land_assoc.
      rewrite (Z.land_comm CSIGNAL f), Hfs. apply Z.land_0_r. }
    rewrite Hsf, Z.lor_0_r.
    destruct (existsb (fun a => (a =? f)%Z) chosen) eqn:Hex.
    + apply existsb_exists in Hex as (a & Hin & Haf).
      apply Z.eqb_eq in Haf. subst a. apply list_elem_of_In in Hin.
      split; [ auto | intros _ ]. apply negb_true_iff, Z.eqb_neq. exact Hf0.
    + split; [ discriminate | ]. intros Hin. exfalso.
      apply list_elem_of_In in Hin.
      assert (Hex' : existsb (fun a => (a =? f)%Z) chosen = true)
        by (apply existsb_exists; exists f; split; [ exact Hin | apply Z.eqb_refl ]).
      congruence.
  - rewrite Z.land_lor_distr_l, (land_chosen_signal chosen Hall).
    rewrite (land_signal signal Hs). reflexivity.
Qed.

(** Every flag is one bit, between bit 8 and bit 31. *)
Lemma clone_flags_single_bit (f : Z) :
  f ∈ clone_flags -> exists k, (8 <= k <= 31)%Z /\ f = (2 ^ k)%Z.
Proof.
  assert (Hall : forallb (fun a => (a =? 2 ^ Z.log2 a)%Z
                                   && (8 <=? Z.log2 a)%Z && (Z.log2 a <=? 31)%Z)
                         clone_flags = true) by (vm_compute; reflexivity).
  intros Hf. apply list_elem_of_In in Hf.
  rewrite forallb_forall in Hall. specialize (Hall f Hf).
  apply andb_true_iff in Hall as [Hall H31].
  apply andb_true_iff in Hall as [Hpow H8].
  apply Z.eqb_eq in Hpow. apply Z.leb_le in H8, H31.
  exists (Z.log2 f). auto.
Qed.

Lemma clone_flags_distinct : NoDup clone_flags /\ length clone_flags = 23.
Proof.
  split; [ | reflexivity ]. apply (bool_decide_unpack _). vm_compute. exact I.
Qed.

(** X17: the 23 clone flags are distinct single bits, each between bit 8
    and bit 31, so they overlap neither each other nor the signal mask.
    From a word made of any choice of flags and an exit signal of at most
    255, the test [word & flag != 0] tells for every flag whether it was
    chosen, and [word & CSIGNAL] is the signal. *)
Theorem clone_flags_decode (chosen : list Z) (signal f : Z) :
  Forall (fun a => a ∈ clone_flags) chosen ->
  (0 <= signal <= 255)%Z ->
  f ∈ clone_flags ->
  NoDup clone_flags
  /\ length clone_flags = 23
  /\ (exists k, (8 <= k <= 31)%Z /\ f = (2 ^ k)%Z)
  /\ (forall g, g ∈ clone_flags -> g <> f -> Z.land f g = 0%Z)
  /\ Z.land f CSIGNAL = 0%Z
  /\ (has_flag (flags_word chosen signal) f = true <-> f ∈ chosen)
  /\ Z.land (flags_word chosen signal) CSIGNAL = signal.
Proof.
  intros Hall Hs Hf.
  split; [ apply clone_flags_distinct | ].
  split; [ apply clone_flags_distinct | ].
  split; [ now apply clone_flags_single_bit | ].
  split.
  { intros g Hg Hne. rewrite (clone_flags_pairwise f g Hf Hg).
    destruct (f =? g)%Z eqn:Hfg; [ | reflexivity ].
    apply Z.eqb_eq in Hfg. congruence. }
  split; [ apply (clone_flags_above_signal f Hf) | ].
  now apply flags_word_decode.
Qed.

End CloneFlags.

(** ** Instances *)

Lemma buffers_valid_init : buffers_valid initWorld.
Proof.
  split; intros k p Hk; simpl in Hk; rewrite lookup_empty in Hk; discriminate.
Qed.

Lemma bootstrap_caches_the_enumeration_witness :
  containerCacheOnce initWorld = false
  /\ GetDockerConfigList ext_two (calls initWorld) = Ok [dc_web; dc_db]
  /\ heap (bootstrapped ext_two initWorld)
     = heap initWorld ++ map boot_entry [dc_web; dc_db]
  /\ (forall dc, dc ∈ [dc_web; dc_db] ->
        exists p dc', dc' ∈ [dc_web; dc_db]
          /\ DockerConfig.ID dc' = DockerConfig.ID dc
          /\ map_index (containerCache (bootstrapped ext_two initWorld))
                       (DockerConfig.ID dc) = Some p
          /\ heap (bootstrapped ext_two initWorld) !! p = Some (boot_entry dc'))
  /\ (forall k p,
        map_index (containerCache (bootstrapped ext_two initWorld)) k = Some p ->
        exists dc, dc ∈ [dc_web; dc_db] /\ DockerConfig.ID dc = k
          /\ heap (bootstrapped ext_two initWorld) !! p = Some (boot_entry dc)).
Proof.
  split; [ reflexivity | ]. split; [ reflexivity | ].
  apply (bootstrap_caches_the_enumeration ext_two initWorld [dc_web; dc_db]);
    reflexivity.
Defined.

Lemma enumeration_runs_at_most_once_witness :
  exists w',
    run_ops ext_off [OpGet "c1"; OpGet "c2"] initWorld = Ret tt w'
    /\ calls w' = [CallGetDockerConfigList; CallGetDockerConfig "c1";
                   CallGetDockerConfig "c2"]
    /\ enumerations (calls w')
       <= enumerations (calls initWorld)
          + (if containerCacheOnce initWorld then 0 else 1).
Proof.
  eexists. split; [ vm_compute; reflexivity | ]. split; [ reflexivity | ].
  apply (enumeration_runs_at_most_once ext_off [OpGet "c1"; OpGet "c2"] initWorld).
  vm_compute; reflexivity.
Defined.

Lemma cache_never_evicts_witness :
  exists w',
    run_ops ext_empty [OpTranslate removed_c2; OpGet "c2"] seenWorld = Ret tt w'
    /\ containerCacheOnce seenWorld = true
    /\ is_Some (map_index (containerCache seenWorld) "c2")
    /\ is_Some (map_index (containerCache w') "c2").
Proof.
  eexists. split; [ vm_compute; reflexivity | ]. split; [ reflexivity | ].
  assert (Hin : is_Some (map_index (containerCache seenWorld) "c2"))
    by (exists 0; vm_compute; reflexivity).
  split; [ exact Hin | ].
  apply (cache_never_evicts ext_empty [OpTranslate removed_c2; OpGet "c2"]
           seenWorld _ "c2"); [ vm_compute; reflexivity | reflexivity | exact Hin ].
Defined.

Lemma translator_only_bootstraps_witness :
  exists evs w',
    feed ext_empty mixed_stream initWorld = Ret evs w'
    /\ lookups (calls w') = lookups (calls initWorld)
    /\ (calls w' = calls initWorld
        \/ calls w' = calls initWorld ++ [CallGetDockerConfigList])
    /\ (if containerCacheOnce initWorld then calls w' = calls initWorld else True).
Proof.
  eexists _, _. split; [ vm_compute; reflexivity | ].
  eapply (translator_only_bootstraps ext_empty mixed_stream initWorld).
  vm_compute; reflexivity.
Defined.

Lemma known_streams_translate_without_panic_witness :
  Forall known_phase mixed_stream
  /\ buffers_valid initWorld
  /\ cache_usable ext_empty initWorld
  /\ exists evs w',
       feed ext_empty mixed_stream initWorld = Ret evs w'
       /\ length evs <= length mixed_stream
       /\ buffers_valid w'
       /\ cache_usable ext_empty w'.
Proof.
  assert (Hk : Forall known_phase mixed_stream)
    by (repeat (apply List.Forall_cons; [ exact I | ]); apply List.Forall_nil).
  assert (Hu : cache_usable ext_empty initWorld)
    by (unfold cache_usable; simpl; eexists; reflexivity).
  split; [ exact Hk | ]. split; [ exact buffers_valid_init | ].
  split; [ exact Hu | ].
  apply (known_streams_translate_without_panic ext_empty mixed_stream initWorld
           Hk buffers_valid_init Hu).
Defined.

Lemma translated_ids_are_cache_hits_witness :
  Forall known_phase mixed_stream
  /\ buffers_valid initWorld
  /\ cache_usable ext_empty initWorld
  /\ exists evs w',
       feed ext_empty mixed_stream initWorld = Ret evs w'
       /\ Forall (fun n => getContainerEvent ext_empty (container.Event.ID n) w'
                           = Ret (None, None) w') mixed_stream.
Proof.
  assert (Hk : Forall known_phase mixed_stream)
    by (repeat (apply List.Forall_cons; [ exact I | ]); apply List.Forall_nil).
  assert (Hu : cache_usable ext_empty initWorld)
    by (unfold cache_usable; simpl; eexists; reflexivity).
  split; [ exact Hk | ]. split; [ exact buffers_valid_init | ].
  split; [ exact Hu | ].
  apply (translated_ids_are_cache_hits ext_empty mixed_stream initWorld
           Hk buffers_valid_init Hu).
Defined.

Lemma pairing_stream_emits_every_second_witness :
  pairing ContainerCreated
  /\ Forall (fun n => container.Event.State n = ContainerCreated
                      /\ container.Event.ID n = "c1")
            [created_long; created_short; created_long]
  /\ map_index (merge_map ContainerCreated initWorld) "c1" = None
  /\ cache_usable ext_empty initWorld
  /\ exists evs w',
       feed ext_empty [created_long; created_short; created_long] initWorld
       = Ret evs w'
       /\ length evs = Nat.div2 (length [created_long; created_short; created_long])
       /\ (if Nat.even (length [created_long; created_short; created_long])
           then map_index (merge_map ContainerCreated w') "c1" = None
           else is_Some (map_index (merge_map ContainerCreated w') "c1")).
Proof.
  assert (Hp : pairing ContainerCreated) by (left; reflexivity).
  assert (Hall : Forall (fun n => container.Event.State n = ContainerCreated
                                  /\ container.Event.ID n = "c1")
                        [created_long; created_short; created_long])
    by (repeat (apply List.Forall_cons; [ split; reflexivity | ]); apply List.Forall_nil).
  assert (Hu : cache_usable ext_empty initWorld)
    by (unfold cache_usable; simpl; eexists; reflexivity).
  split; [ exact Hp | ]. split; [ exact Hall | ]. split; [ reflexivity | ].
  split; [ exact Hu | ].
  apply (pairing_stream_emits_every_second ext_empty ContainerCreated "c1"
           [created_long; created_short; created_long] initWorld Hp Hall);
    [ reflexivity | exact Hu ].
Defined.

Lemma interleaved_pairs_do_not_interfere_witness :
  pairing ContainerCreated /\ pairing ContainerCreated
  /\ container.Event.State created_long = ContainerCreated
  /\ container.Event.State created_short = ContainerCreated
  /\ container.Event.State created_other = ContainerCreated
  /\ container.Event.ID created_short = container.Event.ID created_long
  /\ (ContainerCreated <> ContainerCreated
      \/ container.Event.ID created_other <> container.Event.ID created_long)
  /\ map_index (merge_map ContainerCreated initWorld)
               (container.Event.ID created_long) = None
  /\ map_index (merge_map ContainerCreated initWorld)
               (container.Event.ID created_other) = None
  /\ cache_usable ext_empty initWorld
  /\ exists ev w' q,
       feed ext_empty [created_long; created_other; created_short] initWorld
       = Ret [ev] w'
       /\ emitted w' ev = Some (merge_object created_short (first_object created_long))
       /\ map_index (merge_map ContainerCreated w')
                    (container.Event.ID created_long) = None
       /\ map_index (merge_map ContainerCreated w')
                    (container.Event.ID created_other) = Some q
       /\ heap w' !! q = Some (first_object created_other).
Proof.
  assert (Hp : pairing ContainerCreated) by (left; reflexivity).
  assert (Hne : ContainerCreated <> ContainerCreated
                \/ container.Event.ID created_other
                   <> container.Event.ID created_long)
    by (right; discriminate).
  assert (Hu : cache_usable ext_empty initWorld)
    by (unfold cache_usable; simpl; eexists; reflexivity).
  split; [ exact Hp | ]. split; [ exact Hp | ]. split; [ reflexivity | ].
  split; [ reflexivity | ]. split; [ reflexivity | ]. split; [ reflexivity | ].
  split; [ exact Hne | ]. split; [ reflexivity | ]. split; [ reflexivity | ].
  split; [ exact Hu | ].
  apply (interleaved_pairs_do_not_interfere ext_empty ContainerCreated
           ContainerCreated created_long created_other created_short initWorld);
    [ exact Hp | exact Hp | reflexivity | reflexivity | reflexivity
    | reflexivity | exact Hne | reflexivity | reflexivity | exact Hu ].
Defined.

Lemma paired_notifications_share_one_object_witness :
  pairing ContainerStarted
  /\ container.Event.State started_docker = ContainerStarted
  /\ container.Event.State started_oci = ContainerStarted
  /\ container.Event.ID started_oci = container.Event.ID started_docker
  /\ map_index (merge_map ContainerStarted initWorld)
               (container.Event.ID started_docker) = None
  /\ cache_usable ext_empty initWorld
  /\ exists p w1 ev w2,
       translateContainerEvents ext_empty started_docker initWorld = Ret None w1
       /\ map_index (merge_map ContainerStarted w1)
                    (container.Event.ID started_docker) = Some p
       /\ map_index (containerCache w1) (container.Event.ID started_docker) = Some p
       /\ heap w1 !! p = Some (first_object started_docker)
       /\ translateContainerEvents ext_empty started_oci w1 = Ret (Some ev) w2
       /\ Event.Event ev = Some (Event_Container p)
       /\ map_index (containerCache w2) (container.Event.ID started_docker) = Some p
       /\ heap w2 !! p = Some (merge_object started_oci (first_object started_docker)).
Proof.
  assert (Hp : pairing ContainerStarted) by (right; reflexivity).
  assert (Hu : cache_usable ext_empty initWorld)
    by (unfold cache_usable; simpl; eexists; reflexivity).
  split; [ exact Hp | ]. split; [ reflexivity | ]. split; [ reflexivity | ].
  split; [ reflexivity | ]. split; [ reflexivity | ]. split; [ exact Hu | ].
  apply (paired_notifications_share_one_object ext_empty ContainerStarted
           started_docker started_oci initWorld);
    [ exact Hp | reflexivity | reflexivity | reflexivity | reflexivity | exact Hu ].
Defined.

Lemma created_pair_takes_names_from_first_witness :
  container.Event.State created_long = ContainerCreated
  /\ container.Event.State created_short = ContainerCreated
  /\ container.Event.ID created_short = container.Event.ID created_long
  /\ map_index (containerCreated initWorld) (container.Event.ID created_long) = None
  /\ cache_usable ext_empty initWorld
  /\ exists ev w2 e,
       feed ext_empty [created_long; created_short] initWorld = Ret [ev] w2
       /\ emitted w2 ev = Some e
       /\ ContainerEvent.Name e = container.Event.Name created_long
       /\ ContainerEvent.ImageId e = container.Event.ImageID created_long
       /\ ContainerEvent.ImageName e = container.Event.Image created_long
       /\ ContainerEvent.OciConfigJson e = container.Event.OciConfig created_short
       /\ ContainerEvent.HostPid e = 0%Z
       /\ ContainerEvent.ExitCode e = 0%Z
       /\ Event.ContainerName ev = container.Event.Name created_long
       /\ Event.ImageId ev = container.Event.ImageID created_long
       /\ Event.ImageName ev = container.Event.Image created_long.
Proof.
  assert (Hu : cache_usable ext_empty initWorld)
    by (unfold cache_usable; simpl; eexists; reflexivity).
  split; [ reflexivity | ]. split; [ reflexivity | ]. split; [ reflexivity | ].
  split; [ reflexivity | ]. split; [ exact Hu | ].
  apply (created_pair_takes_names_from_first ext_empty created_long created_short
           initWorld);
    [ reflexivity | reflexivity | reflexivity | reflexivity | exact Hu ].
Defined.

Lemma stopped_event_is_the_notification_witness :
  container.Event.State stopped_c1 = ContainerStopped
  /\ cache_usable ext_empty initWorld
  /\ exists ev w' p,
       feed ext_empty [stopped_c1] initWorld = Ret [ev] w'
       /\ Event.Event ev = Some (Event_Container p)
       /\ emitted w' ev
          = Some (ContainerEvent.mk CONTAINER_EVENT_TYPE_EXITED
                    (container.Event.Name stopped_c1)
                    (container.Event.ImageID stopped_c1)
                    (container.Event.Image stopped_c1)
                    (int32 (container.Event.Pid stopped_c1))
                    (container.Event.DockerConfig stopped_c1)
                    (container.Event.OciConfig stopped_c1)
                    (container.Event.ExitCode stopped_c1))
       /\ Event.ContainerName ev = container.Event.Name stopped_c1
       /\ Event.ImageId ev = container.Event.ImageID stopped_c1
       /\ Event.ImageName ev = container.Event.Image stopped_c1
       /\ map_index (containerCache w') (container.Event.ID stopped_c1) = Some p.
Proof.
  assert (Hu : cache_usable ext_empty initWorld)
    by (unfold cache_usable; simpl; eexists; reflexivity).
  split; [ reflexivity | ]. split; [ exact Hu | ].
  apply (stopped_event_is_the_notification ext_empty stopped_c1 initWorld);
    [ reflexivity | exact Hu ].
Defined.

Lemma lookup_miss_fetches_once_then_hits_witness :
  map_index (containerCache (bootstrapped ext_empty initWorld)) "c1" = None
  /\ GetDockerConfig ext_empty (calls (bootstrapped ext_empty initWorld)) "c1"
     = Ok dc_web
  /\ is_Some (containerCache (bootstrapped ext_empty initWorld))
  /\ exists w1 p,
       getContainerEvent ext_empty "c1" initWorld = Ret (None, None) w1
       /\ calls w1 = calls (bootstrapped ext_empty initWorld)
                     ++ [CallGetDockerConfig "c1"]
       /\ map_index (containerCache w1) "c1" = Some p
       /\ heap w1 !! p
          = Some (ContainerEvent.mk CONTAINER_EVENT_TYPE_UNKNOWN
                    (DockerConfig.Name dc_web)
                    (trimImageIdPrefix (DockerConfig.Image dc_web))
                    (DockerConfig.Config_Image dc_web) 0 "" "" 0)
       /\ getContainerEvent ext_empty "c1" w1 = Ret (None, None) w1.
Proof.
  assert (Hs : is_Some (containerCache (bootstrapped ext_empty initWorld)))
    by (eexists; reflexivity).
  split; [ reflexivity | ]. split; [ reflexivity | ]. split; [ exact Hs | ].
  apply (lookup_miss_fetches_once_then_hits ext_empty "c1" dc_web initWorld);
    [ reflexivity | reflexivity | exact Hs ].
Defined.

Lemma enumerated_container_is_never_fetched_witness :
  containerCacheOnce initWorld = false
  /\ GetDockerConfigList ext_two (calls initWorld) = Ok [dc_web; dc_db]
  /\ dc_db ∈ [dc_web; dc_db]
  /\ exists w1,
       getContainerEvent ext_two (DockerConfig.ID dc_db) initWorld
       = Ret (None, None) w1
       /\ calls w1 = calls initWorld ++ [CallGetDockerConfigList]
       /\ is_Some (map_index (containerCache w1) (DockerConfig.ID dc_db)).
Proof.
  assert (Hin : dc_db ∈ [dc_web; dc_db])
    by (apply list_elem_of_further; apply list_elem_of_here).
  split; [ reflexivity | ]. split; [ reflexivity | ]. split; [ exact Hin | ].
  apply (enumerated_container_is_never_fetched ext_two [dc_web; dc_db] dc_db
           initWorld); [ reflexivity | reflexivity | exact Hin ].
Defined.

Lemma failed_bootstrap_lookup_witness :
  containerCacheOnce initWorld = false
  /\ GetDockerConfigList ext_off (calls initWorld)
     = Err "cannot connect to the Docker daemon"
  /\ getContainerEvent ext_off "c1" initWorld
     = match GetDockerConfig ext_off
               (calls initWorld ++ [CallGetDockerConfigList]) "c1" with
       | Err err =>
           Ret (None, Some err)
               (mkWorld (heap initWorld) (containerCreated initWorld)
                        (containerStarted initWorld) None true
                        ((calls initWorld ++ [CallGetDockerConfigList])
                           ++ [CallGetDockerConfig "c1"]))
       | Ok _ => Panic "assignment to entry in nil map"
       end.
Proof.
  split; [ reflexivity | ]. split; [ reflexivity | ].
  apply (failed_bootstrap_lookup ext_off "c1"
           "cannot connect to the Docker daemon" initWorld); reflexivity.
Defined.

Lemma translator_panics_on_nil_cache_witness :
  known_phase stopped_c1
  /\ buffers_valid initWorld
  /\ containerCache (bootstrapped ext_down initWorld) = None
  /\ translateContainerEvents ext_down stopped_c1 initWorld
     = Panic "assignment to entry in nil map".
Proof.
  split; [ exact I | ]. split; [ exact buffers_valid_init | ].
  split; [ reflexivity | ].
  apply (translator_panics_on_nil_cache ext_down stopped_c1 initWorld);
    [ exact I | exact buffers_valid_init | reflexivity ].
Defined.

Lemma clone_flags_decode_witness :
  Forall (fun a => a ∈ sensor.clone_flags) [sensor.CLONE_VM; sensor.CLONE_NEWPID]
  /\ (0 <= 17 <= 255)%Z
  /\ sensor.CLONE_NEWPID ∈ sensor.clone_flags
  /\ NoDup sensor.clone_flags
  /\ length sensor.clone_flags = 23
  /\ (exists k, (8 <= k <= 31)%Z /\ sensor.CLONE_NEWPID = (2 ^ k)%Z)
  /\ (forall g, g ∈ sensor.clone_flags -> g <> sensor.CLONE_NEWPID ->
                Z.land sensor.CLONE_NEWPID g = 0%Z)
  /\ Z.land sensor.CLONE_NEWPID sensor.CSIGNAL = 0%Z
  /\ (sensor.has_flag
        (sensor.flags_word [sensor.CLONE_VM; sensor.CLONE_NEWPID] 17)
        sensor.CLONE_NEWPID = true
      <-> sensor.CLONE_NEWPID ∈ [sensor.CLONE_VM; sensor.CLONE_NEWPID])
  /\ Z.land (sensor.flags_word [sensor.CLONE_VM; sensor.CLONE_NEWPID] 17)
            sensor.CSIGNAL = 17%Z.
Proof.
  assert (Hvm : sensor.CLONE_VM ∈ sensor.clone_flags)
    by (apply (bool_decide_unpack _); vm_compute; exact I).
  assert (Hpid : sensor.CLONE_NEWPID ∈ sensor.clone_flags)
    by (apply (bool_decide_unpack _); vm_compute; exact I).
  assert (Hall : Forall (fun a => a ∈ sensor.clone_flags)
                        [sensor.CLONE_VM; sensor.CLONE_NEWPID])
    by (apply List.Forall_cons; [ exact Hvm | ];
        apply List.Forall_cons; [ exact Hpid | apply List.Forall_nil ]).
  assert (Hs : (0 <= 17 <= 255)%Z) by lia.
  split; [ exact Hall | ]. split; [ exact Hs | ]. split; [ exact Hpid | ].
  apply (clone_flags_decode [sensor.CLONE_VM; sensor.CLONE_NEWPID] 17
           sensor.CLONE_NEWPID Hall Hs Hpid).
Defined.

(** ** C5 and C7 after a failed bootstrap *)

(** C5, at the failing input: when the enumeration of the first cache
    access fails, the first of two [Started] notifications panics at the
    cache write, so the pair emits no event at all. *)
Theorem started_pair_panics_after_failed_bootstrap :
  GetDockerConfigList ext_down (calls initWorld)
  = Err "cannot connect to the Docker daemon"
  /\ translateContainerEvents ext_down started_docker initWorld
     = Panic "assignment to entry in nil map"
  /\ feed ext_down [started_docker; started_oci] initWorld
     = Panic "assignment to entry in nil map".
Proof. repeat split; vm_compute; reflexivity. Qed.

(** C7, at the failing input: when the enumeration of the first cache
    access fails, a single [Stopped] notification panics at the cache
    write instead of yielding its [Exited] event. *)
Theorem stopped_panics_after_failed_bootstrap :
  GetDockerConfigList ext_down (calls initWorld)
  = Err "cannot connect to the Docker daemon"
  /\ feed ext_down [stopped_c1] initWorld
     = Panic "assignment to entry in nil map".
Proof. repeat split; vm_compute; reflexivity. Qed.
